(** * nnou-result: the Result container and the resolve adapters

    A shallow embedding of [result.ts], [assert.ts] and [resolve.ts].

    The library is written against the host language's dynamic values, so
    the embedding starts with a small model of them: primitive values,
    heap-allocated objects with identity, functions that may return or
    throw, and promises described by their eventual settlement.  Library
    functions are then transcribed one by one into a state-and-exception
    monad over that heap.

    Scope of the value model.  Properties are data properties: reading
    one never runs code (no accessors, no proxies).  An object's place
    in the prototype hierarchy is fixed when it is created, so "is a
    function", [instanceof Function] and "can be called" coincide, as do
    "is an Error" and [instanceof Error].  Symbols, bigints and
    fractional numbers are left out.  Caller code is total: a function
    either returns or throws.  A promise is described by the state it
    ends in; what a thenable that is not a promise does with the
    resolving functions handed to its [then] is a parameter of the
    development, like the code of the caller's functions. *)

From stdpp Require Import base option list strings pretty gmap.

Open Scope string_scope.
Open Scope list_scope.

(** ** Host values *)

Definition loc := positive.

(** Numbers occur only as opaque payloads that are compared and printed;
    the embedding keeps the integers and [NaN], the one number that is not
    strictly equal to itself. *)
Inductive number :=
  | NaN
  | Num (z : Z).

Inductive value :=
  | VUndefined
  | VNull
  | VBool (b : bool)
  | VNumber (n : number)
  | VString (s : string)
  | VRef (l : loc).
Arguments VRef l%_positive.

(** How a piece of code completes: normally with a result, or abruptly
    with a thrown value. *)
Inductive outcome (A : Type) :=
  | Return (a : A)
  | Throw (e : value).
Arguments Return {A} a.
Arguments Throw {A} e.

(** The eventual state of a promise. *)
Inductive settlement :=
  | Pending
  | Fulfilled (v : value)
  | Rejected (e : value).

(** Objects are classified by what their prototype chain makes of them:
    plain objects, instances of [Error] (subclasses included), functions
    (identified by the code they run) and promises. *)
Inductive kind :=
  | KObject
  | KError
  | KFunction (c : nat)
  | KPromise (s : settlement).

Record obj := Obj { okind : kind; props : gmap string value }.

Record state := State {
  heap : gmap loc obj;
  calls : list (loc * list value)
    (* the invocations made by the call expressions of the library,
       oldest first *)
}.

#[global] Instance number_eq_dec : EqDecision number.
Proof. solve_decision. Defined.
#[global] Instance value_eq_dec : EqDecision value.
Proof. solve_decision. Defined.

(** ** The monad of library code *)

Definition M (A : Type) : Type := state → outcome A * state.

#[global] Instance M_ret : MRet M := λ A a σ, (Return a, σ).
#[global] Instance M_bind : MBind M := λ A B k m σ,
  match m σ with
  | (Return a, σ') => k a σ'
  | (Throw e, σ') => (Throw e, σ')
  end.

Definition throw {A} (e : value) : M A := λ σ, (Throw e, σ).

(** [try { m } catch (error) { k error }] *)
Definition try_catch {A} (m : M A) (k : value → M A) : M A := λ σ,
  match m σ with
  | (Return a, σ') => (Return a, σ')
  | (Throw e, σ') => k e σ'
  end.

Definition get_heap : M (gmap loc obj) := λ σ, (Return (heap σ), σ).

(** ** Operators of the host language *)

(** [typeof v] *)
Definition typeof (h : gmap loc obj) (v : value) : string :=
  match v with
  | VUndefined => "undefined"
  | VNull => "object"
  | VBool _ => "boolean"
  | VNumber _ => "number"
  | VString _ => "string"
  | VRef l =>
      match okind <$> h !! l with
      | Some (KFunction _) => "function"
      | _ => "object"
      end
  end.

(** [a === b]: no conversion; references are compared by identity and
    [NaN] differs from everything. *)
Definition strict_eq (a b : value) : bool :=
  match a, b with
  | VUndefined, VUndefined => true
  | VNull, VNull => true
  | VBool x, VBool y => bool_decide (x = y)
  | VNumber (Num x), VNumber (Num y) => bool_decide (x = y)
  | VString x, VString y => bool_decide (x = y)
  | VRef x, VRef y => bool_decide (x = y)
  | _, _ => false
  end.

(** Truthiness, as taken by [if] and [!]. *)
Definition to_boolean (v : value) : bool :=
  match v with
  | VUndefined | VNull => false
  | VBool b => b
  | VNumber NaN => false
  | VNumber (Num z) => negb (bool_decide (z = 0%Z))
  | VString s => negb (bool_decide (s = ""))
  | VRef _ => true
  end.

(** [v instanceof Error] and [v instanceof Function] *)
Definition instanceof_Error (h : gmap loc obj) (v : value) : bool :=
  match v with
  | VRef l => match okind <$> h !! l with Some KError => true | _ => false end
  | _ => false
  end.

Definition instanceof_Function (h : gmap loc obj) (v : value) : bool :=
  match v with
  | VRef l => match okind <$> h !! l with Some (KFunction _) => true | _ => false end
  | _ => false
  end.

(** [v instanceof Promise], for a promise of the running realm *)
Definition is_promise (h : gmap loc obj) (v : value) : bool :=
  match v with
  | VRef l => match okind <$> h !! l with Some (KPromise _) => true | _ => false end
  | _ => false
  end.

(** What the promise machinery finds when it reads [v.then]: nothing it
    can call, the [then] every promise inherits (of a promise ending in
    state [s]), or a function of the caller's, on the object at [l]. *)
Inductive then_method :=
  | NoThen
  | NativeThen (s : settlement)
  | UserThen (l : loc).

Definition then_of (h : gmap loc obj) (v : value) : then_method :=
  match v with
  | VRef l =>
      match h !! l with
      | Some o =>
          match props o !! "then" with
          | Some t => if instanceof_Function h t then UserThen l else NoThen
          | None =>
              match okind o with
              | KPromise s => NativeThen s
              | _ => NoThen
              end
          end
      | None => NoThen
      end
  | _ => NoThen
  end.

(** [v] has a [then] that can be called. *)
Definition is_thenable (h : gmap loc obj) (v : value) : bool :=
  match then_of h v with
  | NoThen => false
  | _ => true
  end.

(** Data properties inherited from the prototype: [Error.prototype]
    carries an empty [message] and the [name]; nothing the library looks
    at is inherited by the other kinds. *)
Definition inherited (k : kind) : gmap string value :=
  match k with
  | KError => {[ "message" := VString ""; "name" := VString "Error" ]}
  | _ => ∅
  end.

(** [key in o] for an object [o] *)
Definition has_property (o : obj) (key : string) : bool :=
  bool_decide (is_Some (props o !! key)) ||
  bool_decide (is_Some (inherited (okind o) !! key)).

(** [o.key] for an object [o] *)
Definition get_property (o : obj) (key : string) : value :=
  match props o !! key with
  | Some v => v
  | None => default VUndefined (inherited (okind o) !! key)
  end.

(** Allocation of a fresh object. *)
Definition alloc (o : obj) : M value := λ σ,
  let l := fresh (dom (heap σ)) in
  (Return (VRef l), State (<[l := o]> (heap σ)) (calls σ)).

(** [new Error(message)] *)
Definition new_Error (message : string) : M value :=
  alloc (Obj KError {[ "message" := VString message ]}).

(** [v.key] for an arbitrary value: reading a property of [undefined] or
    [null] throws a [TypeError]; primitives have none of the properties
    the library reads. *)
Definition member (v : value) (key : string) : M value :=
  match v with
  | VUndefined | VNull =>
      e ← new_Error ("Cannot read properties of " +:+
                     (if v is VNull then "null" else "undefined") +:+
                     " (reading '" +:+ key +:+ "')");
      throw e
  | VRef l =>
      h ← get_heap;
      mret (from_option (λ o, get_property o key) VUndefined (h !! l))
  | _ => mret VUndefined
  end.

Section Library.

(** The behaviour of the functions the caller passes in: the code run by
    function [c] on its arguments, as a transformation of the heap that
    returns or throws. *)
Variable code : nat → list value → gmap loc obj → outcome value * gmap loc obj.

(** String conversion of an object inside a template literal; it runs
    the object's own conversion methods, so it too may throw or touch
    the heap. *)
Variable object_to_string : loc → gmap loc obj → outcome string * gmap loc obj.

(** Resolving a promise with a thenable runs the thenable's [then] with
    the promise's two resolving functions.  [adopt l h] is the state the
    promise ends in when the thenable is the object at [l], and the heap
    this leaves.  It is used where that [then] is a function of the
    caller's, or where a promise turns out to be fulfilled with yet
    another thenable. *)
Variable adopt : loc → gmap loc obj → settlement * gmap loc obj.

(** [f(args)]: the invocation is recorded, then the function's code
    runs.  Calling something that is not a function throws a
    [TypeError]. *)
Definition call (f : value) (args : list value) : M value :=
  match f with
  | VRef l => λ σ,
      match okind <$> heap σ !! l with
      | Some (KFunction c) =>
          let '(r, h') := code c args (heap σ) in
          (r, State h' (calls σ ++ [(l, args)]))
      | _ => (e ← new_Error "not a function"; throw e) σ
      end
  | _ => e ← new_Error "not a function"; throw e
  end.

(** [`${v}`] *)
Definition template (v : value) : M string :=
  match v with
  | VUndefined => mret "undefined"
  | VNull => mret "null"
  | VBool b => mret (if b then "true" else "false")
  | VNumber NaN => mret "NaN"
  | VNumber (Num z) => mret (pretty z)
  | VString s => mret s
  | VRef l => λ σ,
      let '(r, h') := object_to_string l (heap σ) in
      (r, State h' (calls σ))
  end.

(** *** result.ts *)

(** [ok(value)]: [{ ok: true, value }] *)
Definition ok (v : value) : M value :=
  alloc (Obj KObject {[ "ok" := VBool true; "value" := v ]}).

(** [err(error)]: [{ ok: false, error }] *)
Definition err (e : value) : M value :=
  alloc (Obj KObject {[ "ok" := VBool false; "error" := e ]}).

(** *** assert.ts *)

(** [key in value] and [value.key] once [value] is known to be a
    non-null object *)
Definition object_at (h : gmap loc obj) (v : value) : obj :=
  match v with
  | VRef l => default (Obj KObject ∅) (h !! l)
  | _ => Obj KObject ∅
  end.

Definition isResult (h : gmap loc obj) (v : value) : bool :=
  (strict_eq (VString (typeof h v)) (VString "object") &&
   negb (strict_eq v VNull) &&
   has_property (object_at h v) "ok" &&
   strict_eq (VString (typeof h (get_property (object_at h v) "ok")))
             (VString "boolean"))
  &&
  ((to_boolean (get_property (object_at h v) "ok") &&
    has_property (object_at h v) "value")
   ||
   (negb (to_boolean (get_property (object_at h v) "ok")) &&
    has_property (object_at h v) "error")).

Definition assertResultOk (result : value) : M unit :=
  t ← member result "ok";
  if negb (to_boolean t)
  then e ← new_Error "Expected a successful result"; throw e
  else mret ().

Definition assertResultErr (result : value) : M unit :=
  t ← member result "ok";
  if to_boolean t
  then e ← new_Error "Expected a failed result"; throw e
  else mret ().

Definition assertResultOkEqual (result v : value) : M unit :=
  assertResultOk result;;
  x ← member result "value";
  if negb (strict_eq x v)
  then s ← template v;
       e ← new_Error ("Expected the value to be " +:+ s);
       throw e
  else mret ().

Definition assertResultErrEqual (result error : value) : M unit :=
  assertResultErr result;;
  x ← member result "error";
  if negb (strict_eq x error)
  then s ← template error;
       e ← new_Error ("Expected the error to be " +:+ s);
       throw e
  else mret ().

(** *** resolve.ts *)

(** The [errMessage] constant of [handleError]. *)
Definition errMessage (h : gmap loc obj) (error : value) : value :=
  if strict_eq (VString (typeof h error)) (VString "string") then error
  else if instanceof_Error h error
       then get_property (object_at h error) "message"
       else VString "An error occurred".

(** An omitted [handler] argument reads as [undefined]. *)
Definition handleError (error handler : value) : M value :=
  h ← get_heap;
  let errMessage := errMessage h error in
  if strict_eq (VString (typeof h handler)) (VString "undefined") ||
     strict_eq (VString (typeof h handler)) VNull
  then err errMessage
  else if instanceof_Function h handler
  then e ← call handler [error];
       h' ← get_heap;
       if isResult h' e then mret e else err e
  else err handler.

Definition resolve (fn handler : value) : M value :=
  try_catch (call fn []) (λ error, handleError error handler).

(** A promise resolved with the thenable at [l]: how it ends is what
    [adopt] says; the [then] is run by the promise machinery, not by a
    call expression of the library, and leaves no trace in [calls]. *)
Definition adopted (l : loc) : state → settlement * state := λ σ,
  let '(s, h') := adopt l (heap σ) in (s, State h' (calls σ)).

(** The promise resolution procedure: the state in which a promise ends
    once it is resolved with [v].  A value without a callable [then]
    fulfils it.  A promise is followed: its rejection or pending state
    is taken over, and the value it is fulfilled with resolves the
    promise in turn, which fulfils it unless that value is once more a
    thenable. *)
Definition promise_resolved_with (v : value) : state → settlement * state := λ σ,
  match then_of (heap σ) v with
  | NoThen => (Fulfilled v, σ)
  | NativeThen Pending => (Pending, σ)
  | NativeThen (Rejected e) => (Rejected e, σ)
  | NativeThen (Fulfilled w) =>
      match w, then_of (heap σ) w with
      | VRef lw, (NativeThen _ | UserThen _) => adopted lw σ
      | _, _ => (Fulfilled w, σ)
      end
  | UserThen l => adopted l σ
  end.

(** [await v]: a promise that still has the constructor it inherits is
    waited for as it is; any other value is first made into a promise
    resolved with it. *)
Definition await (v : value) : state → settlement * state := λ σ,
  match v with
  | VRef l =>
      match heap σ !! l with
      | Some (Obj (KPromise s) ps) =>
          match ps !! "constructor" with
          | None => (s, σ)
          | Some _ => promise_resolved_with v σ
          end
      | _ => promise_resolved_with v σ
      end
  | _ => promise_resolved_with v σ
  end.

(** How the promise returned by an [async] function settles when its
    body completes: a returned value resolves it, a thrown one rejects
    it. *)
Definition settle (r : outcome value * state) : settlement * state :=
  match r with
  | (Return v, σ) => promise_resolved_with v σ
  | (Throw e, σ) => (Rejected e, σ)
  end.

(** [resolveAsync]: the settlement of the promise it returns, together
    with the state reached.  While the awaited promise stays pending the
    function never resumes. *)
Definition resolveAsync (fn handler : value) : state → settlement * state := λ σ,
  match call fn [] σ with
  | (Throw error, σ1) => settle (handleError error handler σ1)
  | (Return p, σ1) =>
      match await p σ1 with
      | (Pending, σ2) => (Pending, σ2)
      | (Fulfilled v, σ2) => settle (Return v, σ2)
      | (Rejected error, σ2) => settle (handleError error handler σ2)
      end
  end.

End Library.

(** ** What a caller observes of a Result *)

(** [r] is a Result with [r.ok === true] and [r.value] being [v]. *)
Definition is_success (h : gmap loc obj) (r v : value) : Prop :=
  isResult h r = true ∧
  get_property (object_at h r) "ok" = VBool true ∧
  get_property (object_at h r) "value" = v.

(** [r] is a Result with [r.ok === false] and [r.error] being [e]. *)
Definition is_failure (h : gmap loc obj) (r e : value) : Prop :=
  isResult h r = true ∧
  get_property (object_at h r) "ok" = VBool false ∧
  get_property (object_at h r) "error" = e.

(** What invoking [handler] on [error] would do in heap [h], when
    [handler] is a function. *)
Definition handler_run (code : nat → list value → gmap loc obj → outcome value * gmap loc obj)
    (h : gmap loc obj) (handler error : value)
    : option (loc * (outcome value * gmap loc obj)) :=
  match handler with
  | VRef l =>
      match okind <$> h !! l with
      | Some (KFunction c) => Some (l, code c [error] h)
      | _ => None
      end
  | _ => None
  end.

(** The [catch] block of [resolve] runs with [error] when the call of
    [fn] throws it; that of [resolveAsync] also when the awaited promise
    rejects with it.  [σ1] is the state in which the block starts. *)
Definition catches_sync (code : nat → list value → gmap loc obj → outcome value * gmap loc obj)
    (fn : value) (σ : state) (error : value) (σ1 : state) : Prop :=
  call code fn [] σ = (Throw error, σ1).

Definition catches_async (code : nat → list value → gmap loc obj → outcome value * gmap loc obj)
    (adopt : loc → gmap loc obj → settlement * gmap loc obj)
    (fn : value) (σ : state) (error : value) (σ1 : state) : Prop :=
  call code fn [] σ = (Throw error, σ1) ∨
  ∃ p σ', call code fn [] σ = (Return p, σ') ∧ await adopt p σ' = (Rejected error, σ1).

(** How [await fn()] completes: with the value the awaited promise is
    fulfilled with, or abruptly with what [fn] threw or the promise was
    rejected with; not at all while the promise stays pending. *)
Definition awaited (code : nat → list value → gmap loc obj → outcome value * gmap loc obj)
    (adopt : loc → gmap loc obj → settlement * gmap loc obj)
    (fn : value) (σ : state) : option (outcome value * state) :=
  match call code fn [] σ with
  | (Throw e, σ1) => Some (Throw e, σ1)
  | (Return p, σ1) =>
      match await adopt p σ1 with
      | (Pending, _) => None
      | (Fulfilled v, σ2) => Some (Return v, σ2)
      | (Rejected e, σ2) => Some (Throw e, σ2)
      end
  end.

(** What an adapter's [try]/[catch] makes of the way its operation
    completed: a returned value is kept, a raised one goes through the
    normalization policy. *)
Definition adapter_result (code : nat → list value → gmap loc obj → outcome value * gmap loc obj)
    (handler : value) (completion : outcome value * state) : outcome value * state :=
  match completion with
  | (Return v, σ1) => (Return v, σ1)
  | (Throw e, σ1) => handleError code e handler σ1
  end.

(** The fallback message read as "the message of any value that has
    one": the caught string, else the [message] field of whatever
    object has such a field, else the fixed string. *)
Definition fallback_of_any_message (h : gmap loc obj) (e : value) : value :=
  match e with
  | VString _ => e
  | _ =>
      if has_property (object_at h e) "message"
      then get_property (object_at h e) "message"
      else VString "An error occurred"
  end.

(** The structural reading of [isResult]: a non-null object (not a
    function) whose [ok] field holds a boolean and whose payload field
    matching that boolean is present. *)
Definition result_shape (h : gmap loc obj) (v : value) : Prop :=
  ∃ l o b,
    v = VRef l ∧ h !! l = Some o ∧
    (∀ c, okind o ≠ KFunction c) ∧
    has_property o "ok" = true ∧
    get_property o "ok" = VBool b ∧
    has_property o (if b then "value" else "error") = true.

(** Library code [m] either returns leaving the state as it was, or
    throws an [Error] it has just made, which is then the one object
    added to the heap; it invokes nothing. *)
Definition returns_or_raises {A} (m : M A) : Prop :=
  ∀ σ,
    (∃ a, m σ = (Return a, σ)) ∨
    (∃ l message,
        heap σ !! l = None ∧
        m σ = (Throw (VRef l),
               State (<[l := Obj KError {[ "message" := VString message ]}]> (heap σ))
                     (calls σ))).

(** The heap on which the policy allocates: the one the handler left when
    it is a function, the one it started from otherwise. *)
Definition heap_after_handler
    (code : nat → list value → gmap loc obj → outcome value * gmap loc obj)
    (h : gmap loc obj) (handler error : value) : gmap loc obj :=
  match handler_run code h handler error with
  | Some (_, (_, h1)) => h1
  | None => h
  end.

(** The invocations the policy makes: the handler on the caught value
    when it is a function, none otherwise. *)
Definition handler_calls
    (code : nat → list value → gmap loc obj → outcome value * gmap loc obj)
    (h : gmap loc obj) (handler error : value) : list (loc * list value) :=
  match handler_run code h handler error with
  | Some (l, _) => [(l, [error])]
  | None => []
  end.

(** ** A concrete program: the operations of the repository's test-suite *)

Module Tests.

(** Runs library code as part of a caller's function body. *)
Definition on_heap {A} (m : M A) (h : gmap loc obj) : outcome A * gmap loc obj :=
  let '(r, σ) := m (State h []) in (r, heap σ).

Definition first_arg (args : list value) : value := default VUndefined (head args).

(** [e instanceof Error ? e : new Error('Another error')] *)
Definition as_error (e : value) : M value :=
  h ← get_heap;
  if instanceof_Error h e then mret e else new_Error "Another error".

Definition code (c : nat) (args : list value) (h : gmap loc obj)
    : outcome value * gmap loc obj :=
  match c with
  | 0 => (* () => ok(42) *)
      on_heap (ok (VNumber (Num 42))) h
  | 1 => (* () => err('An error occurred') *)
      on_heap (err (VString "An error occurred")) h
  | 2 => (* () => { throw new Error('An error occurred') } *)
      on_heap (e ← new_Error "An error occurred"; throw e) h
  | 3 => (* (e) => e instanceof Error ? e : new Error('Another error') *)
      on_heap (as_error (first_arg args)) h
  | 4 => (* (e) => err(e instanceof Error ? e : new Error('Another error')) *)
      on_heap (e ← as_error (first_arg args); err e) h
  | 5 => (* (e) => { throw new Error('handler failed') } *)
      on_heap (e ← new_Error "handler failed"; throw e) h
  | 6 => (* () => Promise.resolve(ok(42)) *)
      on_heap (r ← ok (VNumber (Num 42)); alloc (Obj (KPromise (Fulfilled r)) ∅)) h
  | 7 => (* () => Promise.reject(new Error('An error occurred')) *)
      on_heap (e ← new_Error "An error occurred";
               alloc (Obj (KPromise (Rejected e)) ∅)) h
  | 8 => (* () => { throw 'plain' } *)
      (Throw (VString "plain"), h)
  | 9 => (* (e) => ok(1) *)
      on_heap (ok (VNumber (Num 1))) h
  | 10 => (* () => { const e = new Error('An error occurred');
                     Promise.reject(e); throw e } *)
      on_heap (e ← new_Error "An error occurred";
               alloc (Obj (KPromise (Rejected e)) ∅);;
               throw e) h
  | _ => (Return VUndefined, h)
  end.

Definition object_to_string (l : loc) (h : gmap loc obj) : outcome string * gmap loc obj :=
  (Return "[object Object]", h).

(** Function [c] lives at location [c + 1]; location 20 holds the
    default error [{ code: 'err-code' }]. *)
Definition fn (c : nat) : value := VRef (Pos.of_succ_nat c).

Definition myError : value := VRef 20.

Definition heap0 : gmap loc obj :=
  <[20%positive := Obj KObject {[ "code" := VString "err-code" ]}]>
    (list_to_map ((λ c, (Pos.of_succ_nat c, Obj (KFunction c) ∅)) <$> seq 0 11)).

Definition sigma0 : state := State heap0 [].

(** Two distinct objects [{ a: 1 }], at locations 1 and 2, and [ok] of the
    first one at location 3. *)
Definition twins : gmap loc obj :=
  {[ 1%positive := Obj KObject {[ "a" := VNumber (Num 1) ]};
     2%positive := Obj KObject {[ "a" := VNumber (Num 1) ]};
     3%positive := Obj KObject {[ "ok" := VBool true; "value" := VRef 1 ]} ]}.

(** Two more operations, as functions 11 and 12 at locations 12 and 13:
    one throws a plain object that has a [message], the other an [Error]
    made without a message. *)
Definition code_more (c : nat) (args : list value) (h : gmap loc obj)
    : outcome value * gmap loc obj :=
  match c with
  | 11 => (* () => { throw { message: 'boom' } } *)
      on_heap (e ← alloc (Obj KObject {[ "message" := VString "boom" ]}); throw e) h
  | 12 => (* () => { throw new Error() } *)
      on_heap (e ← alloc (Obj KError ∅); throw e) h
  | _ => code c args h
  end.

Definition heap_more : gmap loc obj :=
  <[12%positive := Obj (KFunction 11) ∅]>
    (<[13%positive := Obj (KFunction 12) ∅]> heap0).

(** Three more functions, 13 to 15 at locations 14 to 16.  A handler
    whose answer is a rejected promise dressed as a failure Result; an
    operation that returns a thenable which is not a promise; and the
    [then] of that thenable, whose effect on the promise it is handed is
    given by [adopt] below. *)
Definition code_shaped (c : nat) (args : list value) (h : gmap loc obj)
    : outcome value * gmap loc obj :=
  match c with
  | 13 => (* (e) => Object.assign(Promise.reject('inner'), { ok: false, error: e }) *)
      on_heap (alloc (Obj (KPromise (Rejected (VString "inner")))
                          {[ "ok" := VBool false; "error" := first_arg args ]})) h
  | 14 => (* () => ({ then: refuse }) *)
      on_heap (alloc (Obj KObject {[ "then" := VRef 16 ]})) h
  | 15 => (* refuse = (resolve, reject) => { reject('refused') } *)
      (Return VUndefined, h)
  | _ => code c args h
  end.

Definition heap_shaped : gmap loc obj :=
  <[14%positive := Obj (KFunction 13) ∅]>
    (<[15%positive := Obj (KFunction 14) ∅]>
       (<[16%positive := Obj (KFunction 15) ∅]> heap0)).

(** Every thenable of these programs has the method [refuse]: a promise
    resolved with one is rejected with ['refused']. *)
Definition adopt (l : loc) (h : gmap loc obj) : settlement * gmap loc obj :=
  (Rejected (VString "refused"), h).

End Tests.

(** Looks a key up in a property map built by successive insertions. *)
Ltac lookup_props :=
  simpl props;
  repeat first [ apply lookup_insert_eq
               | rewrite lookup_insert_ne by (intros ?; discriminate) ].

(** ** Basic facts *)

Lemma alloc_fresh o σ :
  ∃ l, heap σ !! l = None ∧
       alloc o σ = (Return (VRef l), State (<[l := o]> (heap σ)) (calls σ)).
Proof.
  exists (fresh (dom (heap σ))). split; [|done].
  apply not_elem_of_dom, is_fresh.
Qed.

Lemma typeof_undefined h v :
  strict_eq (VString (typeof h v)) (VString "undefined") = true ↔ v = VUndefined.
Proof.
  unfold strict_eq. rewrite bool_decide_eq_true.
  destruct v; simpl; [done|..]; try (split; intros ?; discriminate).
  destruct (okind <$> h !! l) as [[]|]; split; intros ?; discriminate.
Qed.

Lemma typeof_never_null h v : strict_eq (VString (typeof h v)) VNull = false.
Proof. done. Qed.

(** ** The shape test *)

Lemma typeof_boolean h v :
  strict_eq (VString (typeof h v)) (VString "boolean") = true ↔ ∃ b, v = VBool b.
Proof.
  unfold strict_eq. rewrite bool_decide_eq_true. split.
  - destruct v; simpl; try discriminate; eauto.
    destruct (okind <$> h !! l) as [[]|]; discriminate.
  - by intros [b ->].
Qed.

Lemma typeof_object_ref h l o :
  h !! l = Some o →
  strict_eq (VString (typeof h (VRef l))) (VString "object") = true ↔
  ∀ c, okind o ≠ KFunction c.
Proof.
  intros Hl. unfold strict_eq. rewrite bool_decide_eq_true. simpl. rewrite Hl. simpl.
  destruct (okind o); split; try done; try discriminate.
  intros H. by destruct (H c).
Qed.

Lemma isResult_shape h v : isResult h v = true ↔ result_shape h v.
Proof.
  split.
  - unfold isResult. rewrite !andb_true_iff, orb_true_iff, !andb_true_iff.
    intros [[[[Hty Hnn] Hok] Hb] Hpay].
    destruct v as [| | | | |l]; try (vm_compute in Hty; discriminate);
      try (vm_compute in Hnn; discriminate).
    destruct (h !! l) as [o|] eqn:Hl.
    + simpl in *. rewrite Hl in *. simpl in *.
      apply typeof_boolean in Hb as [b Hb].
      exists l, o, b. rewrite Hb in Hpay. simpl in Hpay.
      split_and!; [done|done| |done|done|].
      * by apply (typeof_object_ref h l o Hl); simpl; rewrite Hl.
      * destruct b, Hpay as [[Ht Hp]|[Ht Hp]]; done.
    + simpl in *. rewrite Hl in *. simpl in Hok. vm_compute in Hok. discriminate.
  - intros (l & o & b & -> & Hl & Hk & Hok & Hb & Hpay).
    unfold isResult. simpl object_at. rewrite Hl. simpl default.
    rewrite Hok, Hb.
    rewrite (proj2 (typeof_object_ref h l o Hl) Hk).
    destruct b; simpl; rewrite Hpay; done.
Qed.

Lemma has_property_own o key v : props o !! key = Some v → has_property o key = true.
Proof.
  intros H. unfold has_property. rewrite H.
  by rewrite (bool_decide_eq_true_2 (is_Some (Some v))).
Qed.

Lemma get_property_own o key v : props o !! key = Some v → get_property o key = v.
Proof. intros H. unfold get_property. by rewrite H. Qed.

Lemma result_object_is_success h l v k :
  h !! l = Some (Obj KObject (<["ok" := VBool true]> (<["value" := v]> k))) →
  is_success h (VRef l) v.
Proof.
  intros Hl.
  assert (Hok : props (Obj KObject (<["ok" := VBool true]> (<["value" := v]> k))) !! "ok"
                = Some (VBool true)) by lookup_props.
  assert (Hpay : props (Obj KObject (<["ok" := VBool true]> (<["value" := v]> k))) !! "value"
                 = Some v) by lookup_props.
  split_and!.
  - apply isResult_shape. eexists l, _, true. split_and!; [done|exact Hl|done|..].
    + by eapply has_property_own.
    + by eapply get_property_own.
    + by eapply has_property_own.
  - simpl. rewrite Hl. by eapply get_property_own.
  - simpl. rewrite Hl. by eapply get_property_own.
Qed.

Lemma result_object_is_failure h l e k :
  h !! l = Some (Obj KObject (<["ok" := VBool false]> (<["error" := e]> k))) →
  is_failure h (VRef l) e.
Proof.
  intros Hl.
  assert (Hok : props (Obj KObject (<["ok" := VBool false]> (<["error" := e]> k))) !! "ok"
                = Some (VBool false)) by lookup_props.
  assert (Hpay : props (Obj KObject (<["ok" := VBool false]> (<["error" := e]> k))) !! "error"
                 = Some e) by lookup_props.
  split_and!.
  - apply isResult_shape. eexists l, _, false. split_and!; [done|exact Hl|done|..].
    + by eapply has_property_own.
    + by eapply get_property_own.
    + by eapply has_property_own.
  - simpl. rewrite Hl. by eapply get_property_own.
  - simpl. rewrite Hl. by eapply get_property_own.
Qed.

(** [ok] and [err] allocate a fresh object of the expected shape and do
    nothing else. *)
Lemma ok_fresh v σ :
  ∃ l, heap σ !! l = None ∧
       ok v σ = (Return (VRef l),
                 State (<[l := Obj KObject {[ "ok" := VBool true; "value" := v ]}]> (heap σ))
                       (calls σ)) ∧
       is_success (<[l := Obj KObject {[ "ok" := VBool true; "value" := v ]}]> (heap σ))
                  (VRef l) v.
Proof.
  destruct (alloc_fresh (Obj KObject {[ "ok" := VBool true; "value" := v ]}) σ)
    as (l & Hl & Ha).
  exists l. split_and!; [done|done|].
  apply (result_object_is_success _ l v ∅). by rewrite lookup_insert_eq.
Qed.

Lemma err_fresh e σ :
  ∃ l, heap σ !! l = None ∧
       err e σ = (Return (VRef l),
                  State (<[l := Obj KObject {[ "ok" := VBool false; "error" := e ]}]> (heap σ))
                        (calls σ)) ∧
       is_failure (<[l := Obj KObject {[ "ok" := VBool false; "error" := e ]}]> (heap σ))
                  (VRef l) e.
Proof.
  destruct (alloc_fresh (Obj KObject {[ "ok" := VBool false; "error" := e ]}) σ)
    as (l & Hl & Ha).
  exists l. split_and!; [done|done|].
  apply (result_object_is_failure _ l e ∅). by rewrite lookup_insert_eq.
Qed.

(** ** Promises and the values that resolve them *)

Lemma promise_resolved_with_plain adopt v σ :
  then_of (heap σ) v = NoThen → promise_resolved_with adopt v σ = (Fulfilled v, σ).
Proof. intros H. unfold promise_resolved_with. by rewrite H. Qed.

Lemma then_of_plain_object h l ps :
  ps !! "then" = None → then_of (<[l := Obj KObject ps]> h) (VRef l) = NoThen.
Proof. intros H. unfold then_of. rewrite lookup_insert_eq. simpl. by rewrite H. Qed.

(** A Result made by [err] is not a thenable: returned from an [async]
    function, it is what the promise is fulfilled with. *)
Lemma settle_new_failure adopt l e h cs :
  settle adopt
    (Return (VRef l), State (<[l := Obj KObject {[ "ok" := VBool false; "error" := e ]}]> h) cs)
  = (Fulfilled (VRef l),
     State (<[l := Obj KObject {[ "ok" := VBool false; "error" := e ]}]> h) cs).
Proof.
  unfold settle. apply promise_resolved_with_plain. simpl.
  apply then_of_plain_object. vm_compute. reflexivity.
Qed.

Lemma settle_calls adopt r : calls (settle adopt r).2 = calls r.2.
Proof.
  destruct r as [[v|e] σ]; [|done]. unfold settle, promise_resolved_with, adopted.
  destruct (then_of (heap σ) v) as [|[|w|x]|l]; try done.
  - destruct w as [| | | | |lw]; try done.
    destruct (then_of (heap σ) (VRef lw)); try done;
      by destruct (adopt lw (heap σ)).
  - by destruct (adopt l (heap σ)).
Qed.

Lemma resolveAsync_catches code adopt fn handler e σ σ1 :
  catches_async code adopt fn σ e σ1 →
  resolveAsync code adopt fn handler σ = settle adopt (handleError code e handler σ1).
Proof.
  intros [Hc|(p & σ' & Hc & Hp)]; unfold resolveAsync; rewrite Hc; [done|].
  by rewrite Hp.
Qed.

Lemma resolve_catches code fn handler e σ σ1 :
  catches_sync code fn σ e σ1 →
  resolve code fn handler σ = handleError code e handler σ1.
Proof. intros Hc. unfold resolve, try_catch. unfold catches_sync in Hc. by rewrite Hc. Qed.

(** ** The repository's test-suite, evaluated *)

Example test_resolve_returns_ok :
  ∃ σ, resolve Tests.code (Tests.fn 0) VUndefined Tests.sigma0 = (Return (VRef 21), σ) ∧
       is_success (heap σ) (VRef 21) (VNumber (Num 42)).
Proof.
  eexists. split; [vm_compute; reflexivity|].
  apply (result_object_is_success _ 21%positive _ ∅). vm_compute. reflexivity.
Qed.

Example test_resolve_throw_without_handler :
  ∃ σ, resolve Tests.code (Tests.fn 2) VUndefined Tests.sigma0 = (Return (VRef 22), σ) ∧
       is_failure (heap σ) (VRef 22) (VString "An error occurred").
Proof.
  eexists. split; [vm_compute; reflexivity|].
  apply (result_object_is_failure _ 22%positive _ ∅). vm_compute. reflexivity.
Qed.

Example test_resolve_throw_default_error :
  ∃ σ, resolve Tests.code (Tests.fn 2) Tests.myError Tests.sigma0 = (Return (VRef 22), σ) ∧
       is_failure (heap σ) (VRef 22) Tests.myError.
Proof.
  eexists. split; [vm_compute; reflexivity|].
  apply (result_object_is_failure _ 22%positive _ ∅). vm_compute. reflexivity.
Qed.

Example test_resolve_throw_handler_returns_error :
  ∃ σ, resolve Tests.code (Tests.fn 2) (Tests.fn 3) Tests.sigma0 = (Return (VRef 22), σ) ∧
       is_failure (heap σ) (VRef 22) (VRef 21) ∧
       calls σ = [(3%positive, []); (4%positive, [VRef 21])].
Proof.
  eexists. split; [vm_compute; reflexivity|]. split; [|vm_compute; reflexivity].
  apply (result_object_is_failure _ 22%positive _ ∅). vm_compute. reflexivity.
Qed.

Example test_resolve_throw_handler_returns_result :
  ∃ σ, resolve Tests.code (Tests.fn 2) (Tests.fn 4) Tests.sigma0 = (Return (VRef 22), σ) ∧
       is_failure (heap σ) (VRef 22) (VRef 21).
Proof.
  eexists. split; [vm_compute; reflexivity|].
  apply (result_object_is_failure _ 22%positive _ ∅). vm_compute. reflexivity.
Qed.

Example test_resolveAsync_resolves_ok :
  ∃ σ, resolveAsync Tests.code Tests.adopt (Tests.fn 6) VUndefined Tests.sigma0
         = (Fulfilled (VRef 21), σ) ∧
       is_success (heap σ) (VRef 21) (VNumber (Num 42)).
Proof.
  eexists. split; [vm_compute; reflexivity|].
  apply (result_object_is_success _ 21%positive _ ∅). vm_compute. reflexivity.
Qed.

Example test_resolveAsync_rejects_without_handler :
  ∃ σ, resolveAsync Tests.code Tests.adopt (Tests.fn 7) VUndefined Tests.sigma0
         = (Fulfilled (VRef 23), σ) ∧
       is_failure (heap σ) (VRef 23) (VString "An error occurred").
Proof.
  eexists. split; [vm_compute; reflexivity|].
  apply (result_object_is_failure _ 23%positive _ ∅). vm_compute. reflexivity.
Qed.

(** ** The normalization policy, branch by branch *)

Lemma handleError_absent code error σ :
  handleError code error VUndefined σ = err (errMessage (heap σ) error) σ.
Proof. done. Qed.

Lemma handleError_function code error l c o h1 σ :
  okind <$> heap σ !! l = Some (KFunction c) →
  code c [error] (heap σ) = (o, h1) →
  handleError code error (VRef l) σ =
    match o with
    | Throw x => (Throw x, State h1 (calls σ ++ [(l, [error])]))
    | Return v =>
        if isResult h1 v
        then (Return v, State h1 (calls σ ++ [(l, [error])]))
        else err v (State h1 (calls σ ++ [(l, [error])]))
    end.
Proof.
  intros Hl Hc. unfold handleError, mbind, M_bind, get_heap. simpl.
  rewrite Hl. simpl. rewrite Hl, Hc.
  destruct o as [v|x]; [simpl; destruct (isResult h1 v)|]; done.
Qed.

Lemma handleError_default code error handler σ :
  handler ≠ VUndefined →
  instanceof_Function (heap σ) handler = false →
  handleError code error handler σ = err handler σ.
Proof.
  intros Hu Hf. unfold handleError, mbind, M_bind, get_heap.
  rewrite typeof_never_null, orb_false_r.
  destruct (strict_eq (VString (typeof (heap σ) handler)) (VString "undefined")) eqn:Ht.
  - by apply typeof_undefined in Ht.
  - by rewrite Hf.
Qed.

Lemma handler_run_Some code h handler error l r :
  handler_run code h handler error = Some (l, r) →
  ∃ c, handler = VRef l ∧ okind <$> h !! l = Some (KFunction c) ∧
       code c [error] h = r.
Proof.
  unfold handler_run. destruct handler as [| | | | |l']; try done.
  destruct (okind <$> h !! l') as [[| |c|]|] eqn:Hk; try done.
  intros [= <- <-]. eauto.
Qed.

Lemma handler_run_None code h handler error :
  handler_run code h handler error = None →
  instanceof_Function h handler = false.
Proof.
  unfold handler_run, instanceof_Function. destruct handler as [| | | | |l']; try done.
  by destruct (okind <$> h !! l') as [[| |c|]|].
Qed.

Lemma typeof_string h v :
  strict_eq (VString (typeof h v)) (VString "string") = true ↔ ∃ s, v = VString s.
Proof.
  unfold strict_eq. rewrite bool_decide_eq_true. split.
  - destruct v; simpl; try discriminate; eauto.
    destruct (okind <$> h !! l) as [[]|]; discriminate.
  - by intros [s ->].
Qed.

Lemma errMessage_string h s : errMessage h (VString s) = VString s.
Proof. done. Qed.

Lemma errMessage_Error h e :
  instanceof_Error h e = true →
  errMessage h e = get_property (object_at h e) "message".
Proof.
  intros He. unfold errMessage. rewrite He.
  destruct (strict_eq (VString (typeof h e)) (VString "string")) eqn:Hs; [|done].
  apply typeof_string in Hs as [s ->]. done.
Qed.

Lemma errMessage_other h e :
  (∀ s, e ≠ VString s) → instanceof_Error h e = false →
  errMessage h e = VString "An error occurred".
Proof.
  intros Hs He. unfold errMessage. rewrite He.
  destruct (strict_eq (VString (typeof h e)) (VString "string")) eqn:Ht; [|done].
  apply typeof_string in Ht as [s ->]. by destruct (Hs s).
Qed.

Lemma handleError_absent_failure code e σ :
  ∃ r σ2, handleError code e VUndefined σ = (Return r, σ2) ∧
          is_failure (heap σ2) r (errMessage (heap σ) e).
Proof.
  rewrite handleError_absent.
  destruct (err_fresh (errMessage (heap σ) e) σ) as (l & _ & -> & Hf). eauto.
Qed.

Lemma handleError_absent_settles code adopt e σ :
  ∃ r σ2, handleError code e VUndefined σ = (Return r, σ2) ∧
          is_failure (heap σ2) r (errMessage (heap σ) e) ∧
          calls σ2 = calls σ ∧
          settle adopt (Return r, σ2) = (Fulfilled r, σ2).
Proof.
  rewrite handleError_absent.
  destruct (err_fresh (errMessage (heap σ) e) σ) as (l & _ & -> & Hf).
  eexists _, _. split; [done|]. split; [exact Hf|]. split; [done|].
  apply settle_new_failure.
Qed.

(** ** The claims *)

(** C1: when [resolve] or [resolveAsync] catches [e] and no handler was
    given, the value returned (resp. the value the promise is fulfilled
    with) is a failure Result whose error is the fallback message of [e]:
    [e] itself when it is a string, [e.message] when [e] is an [Error],
    and ["An error occurred"] otherwise. *)
Theorem resolve_without_handler_gives_fallback_message
    code adopt fn_s fn_a e σs σs1 σa σa1 :
  catches_sync code fn_s σs e σs1 →
  catches_async code adopt fn_a σa e σa1 →
  (∃ r σ2 m,
      resolve code fn_s VUndefined σs = (Return r, σ2) ∧
      is_failure (heap σ2) r m ∧
      ((∃ s, e = VString s) → m = e) ∧
      (instanceof_Error (heap σs1) e = true →
         m = get_property (object_at (heap σs1) e) "message") ∧
      ((∀ s, e ≠ VString s) → instanceof_Error (heap σs1) e = false →
         m = VString "An error occurred")) ∧
  (∃ r σ2 m,
      resolveAsync code adopt fn_a VUndefined σa = (Fulfilled r, σ2) ∧
      is_failure (heap σ2) r m ∧
      ((∃ s, e = VString s) → m = e) ∧
      (instanceof_Error (heap σa1) e = true →
         m = get_property (object_at (heap σa1) e) "message") ∧
      ((∀ s, e ≠ VString s) → instanceof_Error (heap σa1) e = false →
         m = VString "An error occurred")).
Proof.
  intros Hs Ha. split.
  - destruct (handleError_absent_failure code e σs1) as (r & σ2 & Hh & Hf).
    exists r, σ2, (errMessage (heap σs1) e). split_and!.
    + by rewrite (resolve_catches _ _ _ _ _ _ Hs).
    + done.
    + by intros [s ->].
    + apply errMessage_Error.
    + apply errMessage_other.
  - destruct (handleError_absent_settles code adopt e σa1) as (r & σ2 & Hh & Hf & _ & Hst).
    exists r, σ2, (errMessage (heap σa1) e). split_and!.
    + by rewrite (resolveAsync_catches _ _ _ _ _ _ _ Ha), Hh.
    + done.
    + by intros [s ->].
    + apply errMessage_Error.
    + apply errMessage_other.
Qed.

Lemma resolve_without_handler_gives_fallback_message_witness :
  catches_sync Tests.code (Tests.fn 2) Tests.sigma0 (VRef 21)
    (call Tests.code (Tests.fn 2) [] Tests.sigma0).2 ∧
  catches_async Tests.code Tests.adopt (Tests.fn 7) Tests.sigma0 (VRef 21)
    (call Tests.code (Tests.fn 7) [] Tests.sigma0).2 ∧
  (∃ r σ2,
      resolve Tests.code (Tests.fn 2) VUndefined Tests.sigma0 = (Return r, σ2) ∧
      is_failure (heap σ2) r (VString "An error occurred")) ∧
  (∃ r σ2,
      resolveAsync Tests.code Tests.adopt (Tests.fn 7) VUndefined Tests.sigma0
        = (Fulfilled r, σ2) ∧
      is_failure (heap σ2) r (VString "An error occurred")).
Proof.
  assert (H1 : catches_sync Tests.code (Tests.fn 2) Tests.sigma0 (VRef 21)
                 (call Tests.code (Tests.fn 2) [] Tests.sigma0).2)
    by (vm_compute; reflexivity).
  assert (H2 : catches_async Tests.code Tests.adopt (Tests.fn 7) Tests.sigma0 (VRef 21)
                 (call Tests.code (Tests.fn 7) [] Tests.sigma0).2)
    by (right; eexists (VRef 22), _; vm_compute; split; reflexivity).
  split; [exact H1|]. split; [exact H2|].
  destruct (resolve_without_handler_gives_fallback_message _ _ _ _ _ _ _ _ _ H1 H2)
    as [(r & σ2 & m & Hr & Hf & _ & Hm & _) (r' & σ2' & m' & Hr' & Hf' & _ & Hm' & _)].
  split.
  - exists r, σ2. split; [exact Hr|]. by rewrite Hm in Hf by (vm_compute; reflexivity).
  - exists r', σ2'. split; [exact Hr'|]. by rewrite Hm' in Hf' by (vm_compute; reflexivity).
Defined.

(** The claim as worded reads the message of any value that has one.  A
    thrown [{ message: 'boom' }] has one, yet the error of the Result is
    the fixed string, not ['boom']. *)
Lemma fallback_message_of_a_plain_object_counterexample :
  ¬ (∀ code fn e σ σ1,
       catches_sync code fn σ e σ1 →
       ∃ r σ2, resolve code fn VUndefined σ = (Return r, σ2) ∧
               is_failure (heap σ2) r (fallback_of_any_message (heap σ1) e)).
Proof.
  intros H.
  destruct (H Tests.code_more (VRef 12) (VRef 21) (State Tests.heap_more [])
              (call Tests.code_more (VRef 12) [] (State Tests.heap_more [])).2)
    as (r & σ2 & Hr & _ & _ & He).
  { vm_compute. reflexivity. }
  vm_compute in Hr. injection Hr as <- <-.
  vm_compute in He. discriminate.
Qed.

Lemma success_not_failure h r v e : is_success h r v → is_failure h r e → False.
Proof. intros (_ & Hs & _) (_ & Hf & _). congruence. Qed.

Lemma handleError_default_failure code e handler σ :
  handler ≠ VUndefined →
  instanceof_Function (heap σ) handler = false →
  ∃ l, handleError code e handler σ =
         (Return (VRef l),
          State (<[l := Obj KObject {[ "ok" := VBool false; "error" := handler ]}]> (heap σ))
                (calls σ)) ∧
       is_failure (<[l := Obj KObject {[ "ok" := VBool false; "error" := handler ]}]> (heap σ))
                  (VRef l) handler.
Proof.
  intros Hu Hf. rewrite handleError_default by done.
  destruct (err_fresh handler σ) as (l & _ & -> & Hl). eauto.
Qed.

(** C2: a callable handler is invoked exactly once, with the caught value
    as its only argument.  A returned value that passes [isResult] is
    handed back as it is; any other returned value is wrapped into a
    failure Result.  Conversely, whenever the policy yields a success
    Result, the handler was a function and that Result is the very value
    it returned. *)
Theorem handleError_delegates_to_callable_handler code e σ l c o h1 :
  okind <$> heap σ !! l = Some (KFunction c) →
  code c [e] (heap σ) = (o, h1) →
  (∃ out σ2,
      handleError code e (VRef l) σ = (out, σ2) ∧
      calls σ2 = calls σ ++ [(l, [e])] ∧
      match o with
      | Throw x => out = Throw x
      | Return v =>
          if isResult h1 v
          then out = Return v ∧ heap σ2 = h1
          else ∃ r, out = Return r ∧ is_failure (heap σ2) r v
      end) ∧
  (∀ handler r σ2 v,
      handleError code e handler σ = (Return r, σ2) →
      is_success (heap σ2) r v →
      ∃ l' h', handler_run code (heap σ) handler e = Some (l', (Return r, h')) ∧
               isResult h' r = true ∧ heap σ2 = h').
Proof.
  intros Hl Hc. split.
  - rewrite (handleError_function code e l c o h1 σ Hl Hc).
    destruct o as [v|x]; [destruct (isResult h1 v) eqn:Hv|].
    + eexists _, _. done.
    + destruct (err_fresh v (State h1 (calls σ ++ [(l, [e])]))) as (l' & _ & -> & Hf).
      eexists _, _. split; [done|]. eauto.
    + eexists _, _. done.
  - clear. intros handler r σ2 v Hh Hs.
    destruct (handler_run code (heap σ) handler e) as [[l [o h1]]|] eqn:Hr.
    + apply handler_run_Some in Hr as (c & -> & Hl & Hc).
      rewrite (handleError_function code e l c o h1 σ Hl Hc) in Hh.
      destruct o as [v'|x]; [destruct (isResult h1 v') eqn:Hv|]; try done.
      * injection Hh as <- <-. eauto.
      * destruct (err_fresh v' (State h1 (calls σ ++ [(l, [e])]))) as (l' & _ & He & Hf).
        rewrite He in Hh. injection Hh as <- <-.
        destruct (success_not_failure _ _ _ _ Hs Hf).
    + apply handler_run_None in Hr.
      destruct (decide (handler = VUndefined)) as [->|Hu].
      * rewrite handleError_absent in Hh.
        destruct (err_fresh (errMessage (heap σ) e) σ) as (l' & _ & He & Hf).
        rewrite He in Hh. injection Hh as <- <-.
        destruct (success_not_failure _ _ _ _ Hs Hf).
      * destruct (handleError_default_failure code e handler σ Hu Hr) as (l' & He & Hf).
        rewrite He in Hh. injection Hh as <- <-.
        destruct (success_not_failure _ _ _ _ Hs Hf).
Qed.

Lemma handleError_delegates_to_callable_handler_witness :
  okind <$> heap Tests.sigma0 !! 10%positive = Some (KFunction 9) ∧
  Tests.code 9 [VString "boom"] (heap Tests.sigma0) =
    (Return (VRef 21), (Tests.code 9 [VString "boom"] (heap Tests.sigma0)).2) ∧
  ∃ σ2, handleError Tests.code (VString "boom") (Tests.fn 9) Tests.sigma0
          = (Return (VRef 21), σ2) ∧
        calls σ2 = [(10%positive, [VString "boom"])].
Proof.
  assert (H1 : okind <$> heap Tests.sigma0 !! 10%positive = Some (KFunction 9))
    by (vm_compute; reflexivity).
  assert (H2 : Tests.code 9 [VString "boom"] (heap Tests.sigma0) =
    (Return (VRef 21), (Tests.code 9 [VString "boom"] (heap Tests.sigma0)).2))
    by (vm_compute; reflexivity).
  split; [exact H1|]. split; [exact H2|].
  destruct (handleError_delegates_to_callable_handler _ _ _ _ _ _ _ H1 H2)
    as [(out & σ2 & Hh & Hcalls & Hout) _].
  exists σ2. split; [|exact Hcalls].
  replace (isResult _ _) with true in Hout by (vm_compute; reflexivity).
  destruct Hout as [-> _]. exact Hh.
Defined.

(** C3: a handler that is present but is not a function is returned as
    the error of a fresh failure Result, whatever was caught: the caught
    value has no influence on the outcome. *)
Theorem handleError_static_default_discards_error code e e' handler σ :
  handler ≠ VUndefined →
  instanceof_Function (heap σ) handler = false →
  ∃ r σ2,
    handleError code e handler σ = (Return r, σ2) ∧
    is_failure (heap σ2) r handler ∧
    calls σ2 = calls σ ∧
    handleError code e' handler σ = (Return r, σ2).
Proof.
  intros Hu Hf.
  destruct (handleError_default_failure code e handler σ Hu Hf) as (l & He & Hl).
  eexists _, _. split; [exact He|]. split; [exact Hl|]. split; [done|].
  by rewrite handleError_default, <- (handleError_default code e) by done.
Qed.

Lemma handleError_static_default_discards_error_witness :
  Tests.myError ≠ VUndefined ∧
  instanceof_Function (heap Tests.sigma0) Tests.myError = false ∧
  ∃ r σ2,
    handleError Tests.code (VString "boom") Tests.myError Tests.sigma0 = (Return r, σ2) ∧
    is_failure (heap σ2) r Tests.myError ∧
    calls σ2 = calls Tests.sigma0 ∧
    handleError Tests.code (VNumber (Num 7)) Tests.myError Tests.sigma0 = (Return r, σ2).
Proof.
  assert (H1 : Tests.myError ≠ VUndefined) by discriminate.
  assert (H2 : instanceof_Function (heap Tests.sigma0) Tests.myError = false)
    by (vm_compute; reflexivity).
  split; [exact H1|]. split; [exact H2|].
  exact (handleError_static_default_discards_error
           Tests.code (VString "boom") (VNumber (Num 7)) _ _ H1 H2).
Defined.

(** C9: the guard [typeof handler === null] compares a string with [null]
    and so never holds.  A [null] handler therefore skips the
    absent-handler branch: the policy, and with it [resolve] and
    [resolveAsync] on an operation that raises, answers with a failure
    Result whose error is [null]. *)
Theorem handleError_null_handler_yields_null_error code adopt e σ1 :
  (∀ h handler, strict_eq (VString (typeof h handler)) VNull = false) ∧
  (∃ r σ2,
      handleError code e VNull σ1 = (Return r, σ2) ∧
      is_failure (heap σ2) r VNull ∧
      (∀ fn σ, catches_sync code fn σ e σ1 →
               resolve code fn VNull σ = (Return r, σ2)) ∧
      (∀ fn σ, catches_async code adopt fn σ e σ1 →
               resolveAsync code adopt fn VNull σ = (Fulfilled r, σ2))).
Proof.
  split; [done|].
  destruct (handleError_default_failure code e VNull σ1) as (l & He & Hl); [done..|].
  eexists _, _. split; [exact He|]. split; [exact Hl|]. split.
  - intros fn σ Hc. by rewrite (resolve_catches _ _ _ _ _ _ Hc).
  - intros fn σ Hc. rewrite (resolveAsync_catches _ _ _ _ _ _ _ Hc), He.
    apply settle_new_failure.
Qed.

Lemma handleError_null_handler_yields_null_error_witness :
  catches_sync Tests.code (Tests.fn 2) Tests.sigma0 (VRef 21)
    (call Tests.code (Tests.fn 2) [] Tests.sigma0).2 ∧
  ∃ r σ2,
    resolve Tests.code (Tests.fn 2) VNull Tests.sigma0 = (Return r, σ2) ∧
    is_failure (heap σ2) r VNull.
Proof.
  assert (H1 : catches_sync Tests.code (Tests.fn 2) Tests.sigma0 (VRef 21)
                 (call Tests.code (Tests.fn 2) [] Tests.sigma0).2)
    by (vm_compute; reflexivity).
  split; [exact H1|].
  destruct (handleError_null_handler_yields_null_error Tests.code Tests.adopt (VRef 21)
              (call Tests.code (Tests.fn 2) [] Tests.sigma0).2)
    as (_ & r & σ2 & _ & Hf & Hs & _).
  exists r, σ2. split; [exact (Hs _ _ H1)|exact Hf].
Defined.

(** C10: [ok] and [err] are total.  For every payload, [null] and
    [undefined] included, they return a freshly allocated
    [{ ok: true, value }] (resp. [{ ok: false, error }]) and never
    throw; nothing is checked at run time. *)
Theorem ok_err_total_without_runtime_check v σ :
  (∃ l, heap σ !! l = None ∧
        ok v σ = (Return (VRef l),
                  State (<[l := Obj KObject {[ "ok" := VBool true; "value" := v ]}]> (heap σ))
                        (calls σ))) ∧
  (∃ l, heap σ !! l = None ∧
        err v σ = (Return (VRef l),
                   State (<[l := Obj KObject {[ "ok" := VBool false; "error" := v ]}]> (heap σ))
                         (calls σ))) ∧
  (∃ r σ', ok VNull σ = (Return r, σ') ∧ is_success (heap σ') r VNull) ∧
  (∃ r σ', ok VUndefined σ = (Return r, σ') ∧ is_success (heap σ') r VUndefined) ∧
  (∃ r σ', err VNull σ = (Return r, σ') ∧ is_failure (heap σ') r VNull) ∧
  (∃ r σ', err VUndefined σ = (Return r, σ') ∧ is_failure (heap σ') r VUndefined).
Proof.
  split_and!.
  - destruct (ok_fresh v σ) as (l & ? & ? & _). eauto.
  - destruct (err_fresh v σ) as (l & ? & ? & _). eauto.
  - destruct (ok_fresh VNull σ) as (l & _ & -> & ?). eauto.
  - destruct (ok_fresh VUndefined σ) as (l & _ & -> & ?). eauto.
  - destruct (err_fresh VNull σ) as (l & _ & -> & ?). eauto.
  - destruct (err_fresh VUndefined σ) as (l & _ & -> & ?). eauto.
Qed.

Lemma isResult_false_not_shape h v : ¬ result_shape h v → isResult h v = false.
Proof.
  intros Hn. destruct (isResult h v) eqn:Hr; [|done].
  by apply isResult_shape in Hr.
Qed.

(** C7: [isResult v] holds exactly when [v] is a non-null object whose
    [ok] field is a boolean and whose payload field for that boolean
    ([value] for [true], [error] for [false]) is present.  So it accepts
    whatever [ok] and [err] build, and an object tagged [true] that has
    both payload fields; it rejects [null], [undefined], every
    non-object, an object whose tag is not a boolean, a [true] tag
    without a [value] field and a [false] tag without an [error] field,
    whatever other field is there. *)
Theorem isResult_structural_test :
  (∀ h v, isResult h v = true ↔ result_shape h v) ∧
  (∀ v σ, ∃ r σ', ok v σ = (Return r, σ') ∧ isResult (heap σ') r = true) ∧
  (∀ e σ, ∃ r σ', err e σ = (Return r, σ') ∧ isResult (heap σ') r = true) ∧
  (∀ h l v e k,
      h !! l = Some (Obj KObject (<["ok" := VBool true]> (<["value" := v]> (<["error" := e]> k)))) →
      isResult h (VRef l) = true) ∧
  (∀ h, isResult h VNull = false ∧ isResult h VUndefined = false) ∧
  (∀ h b n s, isResult h (VBool b) = false ∧ isResult h (VNumber n) = false ∧
              isResult h (VString s) = false) ∧
  (∀ h l c ps, h !! l = Some (Obj (KFunction c) ps) → isResult h (VRef l) = false) ∧
  (∀ h l o, h !! l = Some o → (∀ b, get_property o "ok" ≠ VBool b) →
            isResult h (VRef l) = false) ∧
  (∀ h l o, h !! l = Some o → get_property o "ok" = VBool true →
            has_property o "value" = false → isResult h (VRef l) = false) ∧
  (∀ h l o, h !! l = Some o → get_property o "ok" = VBool false →
            has_property o "error" = false → isResult h (VRef l) = false).
Proof.
  split_and!.
  - apply isResult_shape.
  - intros v σ. destruct (ok_fresh v σ) as (l & _ & -> & Hs & _). eauto.
  - intros e σ. destruct (err_fresh e σ) as (l & _ & -> & Hs & _). eauto.
  - intros h l v e k Hl. by destruct (result_object_is_success h l v _ Hl).
  - done.
  - done.
  - intros h l c ps Hl. apply isResult_false_not_shape.
    intros (l' & o & b & [= <-] & Ho & Hk & _). rewrite Hl in Ho.
    injection Ho as <-. by destruct (Hk c).
  - intros h l o Hl Hb. apply isResult_false_not_shape.
    intros (l' & o' & b & [= <-] & Ho & _ & _ & Hb' & _). rewrite Hl in Ho.
    injection Ho as <-. by destruct (Hb b).
  - intros h l o Hl Hb Hv. apply isResult_false_not_shape.
    intros (l' & o' & b & [= <-] & Ho & _ & _ & Hb' & Hp). rewrite Hl in Ho.
    injection Ho as <-. rewrite Hb in Hb'. injection Hb' as <-. congruence.
  - intros h l o Hl Hb Hv. apply isResult_false_not_shape.
    intros (l' & o' & b & [= <-] & Ho & _ & _ & Hb' & Hp). rewrite Hl in Ho.
    injection Ho as <-. rewrite Hb in Hb'. injection Hb' as <-. congruence.
Qed.

(** The shapes probed by the repository's own tests of [isResult]. *)
Lemma isResult_structural_test_witness :
  isResult {[ 1%positive := Obj KObject {[ "ok" := VString "potato" ]} ]} (VRef 1) = false ∧
  isResult {[ 1%positive := Obj KObject {[ "ok" := VBool true; "error" := VString "An error occurred" ]} ]}
           (VRef 1) = false ∧
  isResult {[ 1%positive := Obj KObject {[ "ok" := VBool false; "value" := VNumber (Num 42) ]} ]}
           (VRef 1) = false ∧
  isResult {[ 1%positive := Obj KObject (<["ok" := VBool true]>
                              (<["value" := VNumber (Num 42)]>
                                 (<["error" := VString "x"]> ∅))) ]}
           (VRef 1) = true.
Proof.
  destruct isResult_structural_test
    as (_ & _ & _ & Hboth & _ & _ & _ & Htag & Htrue & Hfalse).
  split_and!.
  - eapply Htag; [vm_compute; reflexivity|]. intros b. vm_compute. discriminate.
  - eapply Htrue; vm_compute; reflexivity.
  - eapply Hfalse; vm_compute; reflexivity.
  - apply (Hboth _ 1%positive (VNumber (Num 42)) (VString "x") ∅).
    apply lookup_singleton_eq.
Defined.

Lemma call_function code l c args σ :
  okind <$> heap σ !! l = Some (KFunction c) →
  call code (VRef l) args σ =
    ((code c args (heap σ)).1, State (code c args (heap σ)).2 (calls σ ++ [(l, args)])).
Proof. intros Hl. simpl. rewrite Hl. by destruct (code c args (heap σ)). Qed.

(** C4: when [fn] returns normally, [resolve] returns the very value [fn]
    returned, whichever handler is supplied, leaves the heap as [fn] left
    it (so a failure Result stays the failure Result it was), and the
    only invocation it makes is the one call of [fn], without
    arguments. *)
Theorem resolve_passes_normal_result_through code l c handler v h1 σ :
  okind <$> heap σ !! l = Some (KFunction c) →
  code c [] (heap σ) = (Return v, h1) →
  resolve code (VRef l) handler σ = (Return v, State h1 (calls σ ++ [(l, [])])) ∧
  (∀ e, is_failure h1 v e →
        is_failure (heap (resolve code (VRef l) handler σ).2) v e).
Proof.
  intros Hl Hc.
  assert (Hr : resolve code (VRef l) handler σ
               = (Return v, State h1 (calls σ ++ [(l, [])]))).
  { unfold resolve, try_catch. rewrite (call_function code l c [] σ Hl), Hc. done. }
  split; [exact Hr|]. intros e He. by rewrite Hr.
Qed.

Lemma resolve_passes_normal_result_through_witness :
  okind <$> heap Tests.sigma0 !! 2%positive = Some (KFunction 1) ∧
  Tests.code 1 [] (heap Tests.sigma0)
    = (Return (VRef 21), (Tests.code 1 [] (heap Tests.sigma0)).2) ∧
  resolve Tests.code (Tests.fn 1) (Tests.fn 5) Tests.sigma0
    = (Return (VRef 21),
       State (Tests.code 1 [] (heap Tests.sigma0)).2 [(2%positive, [])]) ∧
  is_failure (heap (resolve Tests.code (Tests.fn 1) (Tests.fn 5) Tests.sigma0).2)
             (VRef 21) (VString "An error occurred").
Proof.
  assert (H1 : okind <$> heap Tests.sigma0 !! 2%positive = Some (KFunction 1))
    by (vm_compute; reflexivity).
  assert (H2 : Tests.code 1 [] (heap Tests.sigma0)
               = (Return (VRef 21), (Tests.code 1 [] (heap Tests.sigma0)).2))
    by (vm_compute; reflexivity).
  split; [exact H1|]. split; [exact H2|].
  destruct (resolve_passes_normal_result_through
              Tests.code 2%positive 1 (Tests.fn 5) _ _ Tests.sigma0 H1 H2) as [Hr Hf].
  split; [exact Hr|]. apply Hf.
  apply (result_object_is_failure _ 21%positive _ ∅). vm_compute. reflexivity.
Defined.

Lemma handleError_outcomes code e handler σ :
  match handler_run code (heap σ) handler e with
  | Some (l, (Throw x, h1)) =>
      handleError code e handler σ = (Throw x, State h1 (calls σ ++ [(l, [e])]))
  | _ =>
      ∃ r σ2, handleError code e handler σ = (Return r, σ2) ∧
              isResult (heap σ2) r = true
  end.
Proof.
  destruct (handler_run code (heap σ) handler e) as [[l [o h1]]|] eqn:Hr.
  - apply handler_run_Some in Hr as (c & -> & Hl & Hc).
    rewrite (handleError_function code e l c o h1 σ Hl Hc).
    destruct o as [v|x]; [|done].
    destruct (isResult h1 v) eqn:Hv; [eauto|].
    destruct (err_fresh v (State h1 (calls σ ++ [(l, [e])]))) as (l' & _ & -> & Hf & _).
    eauto.
  - apply handler_run_None in Hr.
    destruct (decide (handler = VUndefined)) as [->|Hu].
    + destruct (handleError_absent_failure code e σ) as (r & σ2 & -> & Hf & _). eauto.
    + destruct (handleError_default_failure code e handler σ Hu Hr) as (l' & -> & Hf & _).
      eauto.
Qed.

Lemma not_thenable h v : is_thenable h v = false → then_of h v = NoThen.
Proof. unfold is_thenable. by destruct (then_of h v). Qed.

(** C5: a failure raised by the operation never leaves the adapter as
    such.  [resolve] returns a value that passes [isResult], unless the
    handler is a function that itself throws, and then what it threw
    comes out of [resolve].  The promise of [resolveAsync] is fulfilled
    with such a value, with two exceptions: a handler that throws
    rejects it with what it threw, and a handler whose own answer is a
    Result and a thenable at once resolves the promise, which then
    follows that thenable. *)
Theorem resolve_converts_raised_failures code adopt handler e :
  (∀ fn σ σ1,
      catches_sync code fn σ e σ1 →
      match handler_run code (heap σ1) handler e with
      | Some (_, (Throw x, _)) =>
          ∃ σ2, resolve code fn handler σ = (Throw x, σ2)
      | _ =>
          ∃ r σ2, resolve code fn handler σ = (Return r, σ2) ∧
                  isResult (heap σ2) r = true
      end) ∧
  (∀ fn σ σ1,
      catches_async code adopt fn σ e σ1 →
      match handler_run code (heap σ1) handler e with
      | Some (_, (Throw x, _)) =>
          ∃ σ2, resolveAsync code adopt fn handler σ = (Rejected x, σ2)
      | Some (l, (Return v, h1)) =>
          if isResult h1 v && is_thenable h1 v
          then resolveAsync code adopt fn handler σ
               = promise_resolved_with adopt v (State h1 (calls σ1 ++ [(l, [e])]))
          else ∃ r σ2, resolveAsync code adopt fn handler σ = (Fulfilled r, σ2) ∧
                       isResult (heap σ2) r = true
      | None =>
          ∃ r σ2, resolveAsync code adopt fn handler σ = (Fulfilled r, σ2) ∧
                  isResult (heap σ2) r = true
      end).
Proof.
  split.
  - intros fn σ σ1 Hs. rewrite (resolve_catches _ _ _ _ _ _ Hs).
    pose proof (handleError_outcomes code e handler σ1) as Ho.
    destruct (handler_run code (heap σ1) handler e) as [[l [[v|x] h1]]|]; eauto.
  - intros fn σ σ1 Ha. rewrite (resolveAsync_catches _ _ _ _ _ _ _ Ha).
    destruct (handler_run code (heap σ1) handler e) as [[l [[v|x] h1]]|] eqn:Hr.
    + apply handler_run_Some in Hr as (c & -> & Hl & Hc).
      rewrite (handleError_function code e l c _ h1 σ1 Hl Hc).
      destruct (isResult h1 v) eqn:Hv; cbn [andb].
      * unfold settle. destruct (is_thenable h1 v) eqn:Ht; [done|].
        exists v, (State h1 (calls σ1 ++ [(l, [e])])). split; [|done].
        apply promise_resolved_with_plain. by apply not_thenable.
      * destruct (err_fresh v (State h1 (calls σ1 ++ [(l, [e])])))
          as (l' & _ & -> & Hf & _).
        eexists _, _. split; [apply settle_new_failure|done].
    + apply handler_run_Some in Hr as (c & -> & Hl & Hc).
      rewrite (handleError_function code e l c _ h1 σ1 Hl Hc). simpl. eauto.
    + apply handler_run_None in Hr.
      destruct (decide (handler = VUndefined)) as [->|Hu].
      * destruct (handleError_absent_settles code adopt e σ1)
          as (r & σ2 & -> & (Hres & _) & _ & ->). eauto.
      * destruct (handleError_default_failure code e handler σ1 Hu Hr)
          as (l' & -> & Hf & _).
        eexists _, _. split; [apply settle_new_failure|done].
Qed.

Lemma resolve_converts_raised_failures_witness :
  catches_sync Tests.code (Tests.fn 2) Tests.sigma0 (VRef 21)
    (call Tests.code (Tests.fn 2) [] Tests.sigma0).2 ∧
  catches_async Tests.code Tests.adopt (Tests.fn 7) Tests.sigma0 (VRef 21)
    (call Tests.code (Tests.fn 7) [] Tests.sigma0).2 ∧
  (∃ σ2, resolve Tests.code (Tests.fn 2) (Tests.fn 5) Tests.sigma0
         = (Throw (VRef 22), σ2)) ∧
  (∃ σ2, resolveAsync Tests.code Tests.adopt (Tests.fn 7) (Tests.fn 5) Tests.sigma0
         = (Rejected (VRef 23), σ2)) ∧
  (∃ r σ2, resolveAsync Tests.code Tests.adopt (Tests.fn 7) (Tests.fn 4) Tests.sigma0
           = (Fulfilled r, σ2) ∧ isResult (heap σ2) r = true).
Proof.
  assert (H1 : catches_sync Tests.code (Tests.fn 2) Tests.sigma0 (VRef 21)
                 (call Tests.code (Tests.fn 2) [] Tests.sigma0).2)
    by (vm_compute; reflexivity).
  assert (H2 : catches_async Tests.code Tests.adopt (Tests.fn 7) Tests.sigma0 (VRef 21)
                 (call Tests.code (Tests.fn 7) [] Tests.sigma0).2)
    by (right; eexists (VRef 22), _; vm_compute; split; reflexivity).
  split; [exact H1|]. split; [exact H2|]. split; [|split].
  - exact (proj1 (resolve_converts_raised_failures
                    Tests.code Tests.adopt (Tests.fn 5) (VRef 21)) _ _ _ H1).
  - exact (proj2 (resolve_converts_raised_failures
                    Tests.code Tests.adopt (Tests.fn 5) (VRef 21)) _ _ _ H2).
  - exact (proj2 (resolve_converts_raised_failures
                    Tests.code Tests.adopt (Tests.fn 4) (VRef 21)) _ _ _ H2).
Defined.

(** The claim as worded promises a Result to the caller whenever the
    handler does not throw.  Here the operation's promise is rejected,
    the handler returns, without throwing, a rejected promise that
    carries the fields of a failure Result, and the promise of
    [resolveAsync] is rejected with ['inner']. *)
Lemma handler_answering_with_a_promise_counterexample :
  ¬ (∀ code adopt fn handler e σ σ1,
       catches_async code adopt fn σ e σ1 →
       match handler_run code (heap σ1) handler e with
       | Some (_, (Throw x, _)) => True
       | _ => ∃ r σ2, resolveAsync code adopt fn handler σ = (Fulfilled r, σ2) ∧
                      isResult (heap σ2) r = true
       end).
Proof.
  intros H.
  specialize (H Tests.code_shaped Tests.adopt (Tests.fn 7) (VRef 14) (VRef 21)
                (State Tests.heap_shaped [])
                (call Tests.code_shaped (Tests.fn 7) [] (State Tests.heap_shaped [])).2).
  assert (Hc : catches_async Tests.code_shaped Tests.adopt (Tests.fn 7)
                 (State Tests.heap_shaped []) (VRef 21)
                 (call Tests.code_shaped (Tests.fn 7) [] (State Tests.heap_shaped [])).2)
    by (right; eexists (VRef 22), _; vm_compute; split; reflexivity).
  specialize (H Hc). vm_compute in H.
  destruct H as (r & σ2 & Heq & _). discriminate.
Qed.

(** C6: [resolveAsync] does with the completion of [await fn()] what
    [resolve] does with the completion of [fn()], and hands the outcome
    to its promise.  For an asynchronous operation whose promise settles
    the way a synchronous one completes: a value the promise is
    fulfilled with is passed on as [resolve] passes on a returned one,
    the handler not being consulted; a rejection goes through
    [handleError] with the same handler, as the throw does.  The promise
    of [resolveAsync] is resolved with what [resolve] would return, so it
    is fulfilled with it unless that value is a thenable, and rejected
    with what [resolve] would throw.  While the awaited promise stays
    pending so does the promise of [resolveAsync]. *)
Theorem resolveAsync_mirrors_resolve code adopt handler :
  (∀ fn σ o σ1,
      call code fn [] σ = (o, σ1) →
      resolve code fn handler σ = adapter_result code handler (o, σ1)) ∧
  (∀ fn σ o σ1,
      awaited code adopt fn σ = Some (o, σ1) →
      resolveAsync code adopt fn handler σ
        = settle adopt (adapter_result code handler (o, σ1)) ∧
      (∀ v, o = Return v →
         resolveAsync code adopt fn handler σ = promise_resolved_with adopt v σ1 ∧
         (is_thenable (heap σ1) v = false →
            resolveAsync code adopt fn handler σ = (Fulfilled v, σ1))) ∧
      (∀ e, o = Throw e →
         resolveAsync code adopt fn handler σ
           = settle adopt (handleError code e handler σ1))) ∧
  (∀ fn_s fn_a e σs σs1 σa σa1,
      call code fn_s [] σs = (Throw e, σs1) →
      awaited code adopt fn_a σa = Some (Throw e, σa1) →
      instanceof_Function (heap σs1) handler = false →
      instanceof_Function (heap σa1) handler = false →
      ∃ rs σs2 ra σa2,
        resolve code fn_s handler σs = (Return rs, σs2) ∧
        resolveAsync code adopt fn_a handler σa = (Fulfilled ra, σa2) ∧
        is_failure (heap σs2) rs
          (if decide (handler = VUndefined) then errMessage (heap σs1) e else handler) ∧
        is_failure (heap σa2) ra
          (if decide (handler = VUndefined) then errMessage (heap σa1) e else handler)) ∧
  (∀ fn σ, awaited code adopt fn σ = None →
           ∃ σ', resolveAsync code adopt fn handler σ = (Pending, σ')).
Proof.
  assert (Hres : ∀ fn σ o σ1,
            call code fn [] σ = (o, σ1) →
            resolve code fn handler σ = adapter_result code handler (o, σ1)).
  { intros fn σ o σ1 Hs. unfold resolve, try_catch. rewrite Hs. by destruct o. }
  assert (Hasync : ∀ fn σ o σ1,
            awaited code adopt fn σ = Some (o, σ1) →
            resolveAsync code adopt fn handler σ
              = settle adopt (adapter_result code handler (o, σ1))).
  { intros fn σ o σ1 Ha. unfold awaited in Ha. unfold resolveAsync.
    destruct (call code fn [] σ) as [[p|e] σ']; [|by injection Ha as <- <-].
    destruct (await adopt p σ') as [[|v|e] σ2]; [done|..]; by injection Ha as <- <-. }
  split; [done|]. split; [|split].
  - intros fn σ o σ1 Ha. split; [by apply Hasync|]. split.
    + intros v ->. split; [exact (Hasync _ _ _ _ Ha)|]. intros Ht.
      rewrite (Hasync _ _ _ _ Ha). apply promise_resolved_with_plain.
      by apply not_thenable.
    + intros e ->. exact (Hasync _ _ _ _ Ha).
  - intros fn_s fn_a e σs σs1 σa σa1 Hs Ha Hfs Hfa.
    rewrite (Hres _ _ _ _ Hs), (Hasync _ _ _ _ Ha). simpl adapter_result.
    destruct (decide (handler = VUndefined)) as [->|Hu].
    + destruct (handleError_absent_failure code e σs1) as (rs & σs2 & -> & Hf).
      destruct (handleError_absent_settles code adopt e σa1)
        as (ra & σa2 & -> & Hf' & _ & ->).
      by exists rs, σs2, ra, σa2.
    + destruct (handleError_default_failure code e handler σs1 Hu Hfs) as (ls & -> & Hf).
      destruct (handleError_default_failure code e handler σa1 Hu Hfa) as (la & -> & Hf').
      eexists _, _, _, _. split; [done|]. split; [apply settle_new_failure|done].
  - intros fn σ Hn. unfold awaited in Hn. unfold resolveAsync.
    destruct (call code fn [] σ) as [[p|e] σ1]; [|done].
    destruct (await adopt p σ1) as [[|v|e] σ2]; [eauto|done..].
Qed.

(** The operations of the test-suite, in pairs: one that throws an error
    and one whose promise is rejected with such an error, under a
    default error; and one whose promise is fulfilled with [ok(42)]. *)
Lemma resolveAsync_mirrors_resolve_witness :
  call Tests.code (Tests.fn 2) [] Tests.sigma0
    = (Throw (VRef 21), (call Tests.code (Tests.fn 2) [] Tests.sigma0).2) ∧
  awaited Tests.code Tests.adopt (Tests.fn 7) Tests.sigma0
    = Some (Throw (VRef 21), (call Tests.code (Tests.fn 7) [] Tests.sigma0).2) ∧
  (∃ rs σs2 ra σa2,
      resolve Tests.code (Tests.fn 2) Tests.myError Tests.sigma0 = (Return rs, σs2) ∧
      resolveAsync Tests.code Tests.adopt (Tests.fn 7) Tests.myError Tests.sigma0
        = (Fulfilled ra, σa2) ∧
      is_failure (heap σs2) rs Tests.myError ∧
      is_failure (heap σa2) ra Tests.myError) ∧
  awaited Tests.code Tests.adopt (Tests.fn 6) Tests.sigma0
    = Some (Return (VRef 21), (call Tests.code (Tests.fn 6) [] Tests.sigma0).2) ∧
  resolveAsync Tests.code Tests.adopt (Tests.fn 6) Tests.myError Tests.sigma0
    = (Fulfilled (VRef 21), (call Tests.code (Tests.fn 6) [] Tests.sigma0).2).
Proof.
  assert (H1 : call Tests.code (Tests.fn 2) [] Tests.sigma0
               = (Throw (VRef 21), (call Tests.code (Tests.fn 2) [] Tests.sigma0).2))
    by (vm_compute; reflexivity).
  assert (H2 : awaited Tests.code Tests.adopt (Tests.fn 7) Tests.sigma0
               = Some (Throw (VRef 21), (call Tests.code (Tests.fn 7) [] Tests.sigma0).2))
    by (vm_compute; reflexivity).
  assert (H4 : awaited Tests.code Tests.adopt (Tests.fn 6) Tests.sigma0
               = Some (Return (VRef 21), (call Tests.code (Tests.fn 6) [] Tests.sigma0).2))
    by (vm_compute; reflexivity).
  destruct (resolveAsync_mirrors_resolve Tests.code Tests.adopt Tests.myError)
    as (_ & Hasync & Hpair & _).
  split; [exact H1|]. split; [exact H2|]. split.
  - exact (Hpair _ _ _ _ _ _ _ H1 H2
             ltac:(vm_compute; reflexivity) ltac:(vm_compute; reflexivity)).
  - split; [exact H4|].
    destruct (Hasync _ _ _ _ H4) as (_ & Hpass & _).
    destruct (Hpass (VRef 21) eq_refl) as (_ & Hplain).
    apply Hplain. vm_compute. reflexivity.
Defined.

(** The claim as worded has [resolveAsync] settle to the value [resolve]
    returns.  Here one operation throws an error and the other's promise
    is rejected with such an error; the handler answers both with a
    rejected promise that carries the fields of a failure Result.
    [resolve] returns that promise as its Result; the promise of
    [resolveAsync] follows it and is rejected, fulfilled with nothing. *)
Lemma resolveAsync_follows_the_returned_promise_counterexample :
  ¬ (∀ code adopt handler fn_s fn_a o σs σs1 σa σa1 r σs2,
       call code fn_s [] σs = (o, σs1) →
       awaited code adopt fn_a σa = Some (o, σa1) →
       resolve code fn_s handler σs = (Return r, σs2) →
       ∃ r' σa2, resolveAsync code adopt fn_a handler σa = (Fulfilled r', σa2)).
Proof.
  intros H.
  destruct (H Tests.code_shaped Tests.adopt (VRef 14) (Tests.fn 2) (Tests.fn 7)
              (Throw (VRef 21))
              (State Tests.heap_shaped [])
              (call Tests.code_shaped (Tests.fn 2) [] (State Tests.heap_shaped [])).2
              (State Tests.heap_shaped [])
              (call Tests.code_shaped (Tests.fn 7) [] (State Tests.heap_shaped [])).2
              (VRef 22)
              (resolve Tests.code_shaped (Tests.fn 2) (VRef 14) (State Tests.heap_shaped [])).2)
    as (r' & σa2 & Heq); [vm_compute; reflexivity..|].
  vm_compute in Heq. discriminate.
Qed.

(** ** The assertions *)

Lemma member_of_result key r σ :
  isResult (heap σ) r = true →
  member r key σ = (Return (get_property (object_at (heap σ) r) key), σ).
Proof.
  intros Hr. apply isResult_shape in Hr as (l & o & b & -> & Hl & _).
  unfold member, mbind, M_bind, get_heap, mret, M_ret. simpl. by rewrite Hl.
Qed.

Lemma mismatch_report_throws ots prefix x σ :
  ∃ t σ', ((s ← template ots x; e ← new_Error (prefix +:+ s); throw e) : M unit) σ
          = (Throw t, σ').
Proof.
  unfold mbind, M_bind. destruct (template ots x σ) as [[s|t] σ1]; simpl; eauto.
Qed.

Lemma assertResultOk_success r v σ :
  is_success (heap σ) r v → assertResultOk r σ = (Return (), σ).
Proof.
  intros (Hr & Hok & _). unfold assertResultOk, mbind, M_bind.
  by rewrite (member_of_result "ok" r σ Hr), Hok.
Qed.

Lemma assertResultErr_failure r e σ :
  is_failure (heap σ) r e → assertResultErr r σ = (Return (), σ).
Proof.
  intros (Hr & Hok & _). unfold assertResultErr, mbind, M_bind.
  by rewrite (member_of_result "ok" r σ Hr), Hok.
Qed.

Lemma assertResultOk_failure r e σ :
  is_failure (heap σ) r e →
  ∃ l, heap σ !! l = None ∧
       assertResultOk r σ =
         (Throw (VRef l),
          State (<[l := Obj KError {[ "message" := VString "Expected a successful result" ]}]>
                   (heap σ)) (calls σ)).
Proof.
  intros (Hr & Hok & _). unfold assertResultOk, mbind, M_bind.
  rewrite (member_of_result "ok" r σ Hr), Hok.
  exists (fresh (dom (heap σ))). split; [|done].
  apply not_elem_of_dom, is_fresh.
Qed.

Lemma assertResultErr_success r v σ :
  is_success (heap σ) r v →
  ∃ l, heap σ !! l = None ∧
       assertResultErr r σ =
         (Throw (VRef l),
          State (<[l := Obj KError {[ "message" := VString "Expected a failed result" ]}]>
                   (heap σ)) (calls σ)).
Proof.
  intros (Hr & Hok & _). unfold assertResultErr, mbind, M_bind.
  rewrite (member_of_result "ok" r σ Hr), Hok.
  exists (fresh (dom (heap σ))). split; [|done].
  apply not_elem_of_dom, is_fresh.
Qed.

Lemma assertResultOkEqual_success ots r v x σ :
  is_success (heap σ) r v →
  if strict_eq v x
  then assertResultOkEqual ots r x σ = (Return (), σ)
  else ∃ t σ', assertResultOkEqual ots r x σ = (Throw t, σ').
Proof.
  intros Hs. pose proof Hs as (Hr & _ & Hv).
  assert (Hstep : ∀ k : value → M unit,
    (assertResultOk r;; x0 ← member r "value"; k x0) σ = k v σ).
  { intros k. unfold mbind at 1 2. unfold M_bind at 1 2.
    by rewrite (assertResultOk_success r v σ Hs), (member_of_result "value" r σ Hr), Hv. }
  unfold assertResultOkEqual. rewrite Hstep.
  destruct (strict_eq v x); simpl; [done|].
  apply mismatch_report_throws.
Qed.

Lemma assertResultErrEqual_failure ots r e x σ :
  is_failure (heap σ) r e →
  if strict_eq e x
  then assertResultErrEqual ots r x σ = (Return (), σ)
  else ∃ t σ', assertResultErrEqual ots r x σ = (Throw t, σ').
Proof.
  intros Hs. pose proof Hs as (Hr & _ & Hv).
  assert (Hstep : ∀ k : value → M unit,
    (assertResultErr r;; x0 ← member r "error"; k x0) σ = k e σ).
  { intros k. unfold mbind at 1 2. unfold M_bind at 1 2.
    by rewrite (assertResultErr_failure r e σ Hs), (member_of_result "error" r σ Hr), Hv. }
  unfold assertResultErrEqual. rewrite Hstep.
  destruct (strict_eq e x); simpl; [done|].
  apply mismatch_report_throws.
Qed.

Lemma strict_eq_distinct_refs l1 l2 : l1 ≠ l2 → strict_eq (VRef l1) (VRef l2) = false.
Proof. intros Hne. simpl. by apply bool_decide_eq_false_2. Qed.

(** C8: on a failure Result [assertResultOkEqual] fails at once, with the
    error of [assertResultOk]; on a success Result it fails exactly when
    the payload is not strictly equal to the expected value, and is
    otherwise without effect.  Strict equality compares objects by
    identity, so an expected object that is a different object with the
    same contents does not pass.  [assertResultErrEqual] does the same
    for failure Results and their error. *)
Theorem assert_equal_compares_by_strict_equality ots r x σ :
  (∀ e, is_failure (heap σ) r e →
        ∃ l, heap σ !! l = None ∧
             assertResultOkEqual ots r x σ =
               (Throw (VRef l),
                State (<[l := Obj KError
                                {[ "message" := VString "Expected a successful result" ]}]>
                         (heap σ)) (calls σ))) ∧
  (∀ v, is_success (heap σ) r v →
        if strict_eq v x
        then assertResultOkEqual ots r x σ = (Return (), σ)
        else ∃ t σ', assertResultOkEqual ots r x σ = (Throw t, σ')) ∧
  (∀ l1 l2, x = VRef l2 → l1 ≠ l2 → heap σ !! l1 = heap σ !! l2 →
            is_success (heap σ) r (VRef l1) →
            ∃ t σ', assertResultOkEqual ots r x σ = (Throw t, σ')) ∧
  (∀ v, is_success (heap σ) r v →
        ∃ l, heap σ !! l = None ∧
             assertResultErrEqual ots r x σ =
               (Throw (VRef l),
                State (<[l := Obj KError
                                {[ "message" := VString "Expected a failed result" ]}]>
                         (heap σ)) (calls σ))) ∧
  (∀ e, is_failure (heap σ) r e →
        if strict_eq e x
        then assertResultErrEqual ots r x σ = (Return (), σ)
        else ∃ t σ', assertResultErrEqual ots r x σ = (Throw t, σ')) ∧
  (∀ l1 l2, x = VRef l2 → l1 ≠ l2 → heap σ !! l1 = heap σ !! l2 →
            is_failure (heap σ) r (VRef l1) →
            ∃ t σ', assertResultErrEqual ots r x σ = (Throw t, σ')).
Proof.
  split_and!.
  - intros e He. destruct (assertResultOk_failure r e σ He) as (l & Hl & Ha).
    exists l. split; [done|]. unfold assertResultOkEqual.
    unfold mbind at 1. unfold M_bind at 1. by rewrite Ha.
  - intros v. apply assertResultOkEqual_success.
  - intros l1 l2 -> Hne _ Hs.
    pose proof (assertResultOkEqual_success ots r _ (VRef l2) σ Hs) as H.
    by rewrite (strict_eq_distinct_refs l1 l2 Hne) in H.
  - intros v Hv. destruct (assertResultErr_success r v σ Hv) as (l & Hl & Ha).
    exists l. split; [done|]. unfold assertResultErrEqual.
    unfold mbind at 1. unfold M_bind at 1. by rewrite Ha.
  - intros e. apply assertResultErrEqual_failure.
  - intros l1 l2 -> Hne _ Hs.
    pose proof (assertResultErrEqual_failure ots r _ (VRef l2) σ Hs) as H.
    by rewrite (strict_eq_distinct_refs l1 l2 Hne) in H.
Qed.

(** Expecting the object the Result carries passes; expecting its twin
    fails. *)
Lemma assert_equal_compares_by_strict_equality_witness :
  Tests.twins !! 1%positive = Tests.twins !! 2%positive ∧
  is_success Tests.twins (VRef 3) (VRef 1) ∧
  assertResultOkEqual Tests.object_to_string (VRef 3) (VRef 1) (State Tests.twins [])
    = (Return (), State Tests.twins []) ∧
  ∃ t σ', assertResultOkEqual Tests.object_to_string (VRef 3) (VRef 2) (State Tests.twins [])
          = (Throw t, σ').
Proof.
  assert (H1 : Tests.twins !! 1%positive = Tests.twins !! 2%positive)
    by (vm_compute; reflexivity).
  assert (H2 : is_success Tests.twins (VRef 3) (VRef 1))
    by (apply (result_object_is_success Tests.twins 3%positive (VRef 1) ∅);
        vm_compute; reflexivity).
  split; [exact H1|]. split; [exact H2|]. split.
  - destruct (assert_equal_compares_by_strict_equality
                Tests.object_to_string (VRef 3) (VRef 1) (State Tests.twins []))
      as (_ & Heq & _).
    exact (Heq (VRef 1) H2).
  - destruct (assert_equal_compares_by_strict_equality
                Tests.object_to_string (VRef 3) (VRef 2) (State Tests.twins []))
      as (_ & _ & Hid & _).
    apply (Hid 1%positive 2%positive); [reflexivity|discriminate|exact H1|exact H2].
Defined.

(** ** Further properties of the assertions *)

Lemma returns_or_raises_ret {A} (a : A) : returns_or_raises (mret a).
Proof. intros σ. left. by exists a. Qed.

Lemma returns_or_raises_get_heap : returns_or_raises get_heap.
Proof. intros σ. left. by exists (heap σ). Qed.

Lemma returns_or_raises_raise {A} message :
  returns_or_raises (e ← new_Error message; throw e : M A).
Proof.
  intros σ. right. exists (fresh (dom (heap σ))), message. split; [|done].
  apply not_elem_of_dom, is_fresh.
Qed.

Lemma returns_or_raises_bind {A B} (m : M A) (k : A → M B) :
  returns_or_raises m → (∀ a, returns_or_raises (k a)) → returns_or_raises (m ≫= k).
Proof.
  intros Hm Hk σ. unfold mbind, M_bind.
  destruct (Hm σ) as [(a & ->)|(l & message & Hl & ->)]; [apply Hk|].
  right. by exists l, message.
Qed.

Lemma returns_or_raises_member v key : returns_or_raises (member v key).
Proof.
  destruct v; simpl;
    first [ apply returns_or_raises_raise | apply returns_or_raises_ret
          | apply returns_or_raises_bind;
              [apply returns_or_raises_get_heap|intros; apply returns_or_raises_ret] ].
Qed.

Lemma member_non_nullish v key σ :
  v ≠ VUndefined → v ≠ VNull →
  member v key σ = (Return (get_property (object_at (heap σ) v) key), σ).
Proof.
  intros Hu Hn. destruct v as [| | | | |l]; try done.
  unfold member, mbind, M_bind, get_heap, mret, M_ret. simpl.
  by destruct (heap σ !! l).
Qed.

Lemma member_nullish v key σ :
  v = VUndefined ∨ v = VNull → ∃ t σ', member v key σ = (Throw t, σ').
Proof. intros [-> | ->]; eexists _, _; reflexivity. Qed.

(** X1: on a value other than [null] and [undefined], exactly one of
    [assertResultOk] and [assertResultErr] returns, and it returns
    leaving the state as it was; the other throws.  On [null] and
    [undefined] both throw, because reading [ok] already does. *)
Theorem assertResultOk_assertResultErr_complementary v σ :
  (v ≠ VUndefined → v ≠ VNull →
     (assertResultOk v σ = (Return (), σ) ∧
      ∃ t σ', assertResultErr v σ = (Throw t, σ')) ∨
     (assertResultErr v σ = (Return (), σ) ∧
      ∃ t σ', assertResultOk v σ = (Throw t, σ'))) ∧
  (v = VUndefined ∨ v = VNull →
     (∃ t σ', assertResultOk v σ = (Throw t, σ')) ∧
     (∃ t σ', assertResultErr v σ = (Throw t, σ'))).
Proof.
  split.
  - intros Hu Hn. unfold assertResultOk, assertResultErr, mbind, M_bind.
    rewrite (member_non_nullish v "ok" σ Hu Hn).
    destruct (to_boolean (get_property (object_at (heap σ) v) "ok")); simpl.
    + left. split; [done|]. eexists _, _. reflexivity.
    + right. split; [done|]. eexists _, _. reflexivity.
  - intros Hv. unfold assertResultOk, assertResultErr, mbind, M_bind.
    destruct (member_nullish v "ok" σ Hv) as (t & σ' & ->).
    split; eexists _, _; reflexivity.
Qed.

Lemma assertResultOk_assertResultErr_complementary_witness :
  assertResultErr (VString "not a result") Tests.sigma0 = (Return (), Tests.sigma0) ∧
  (∃ t σ', assertResultOk (VString "not a result") Tests.sigma0 = (Throw t, σ')) ∧
  (∃ t σ', assertResultOk VNull Tests.sigma0 = (Throw t, σ')).
Proof.
  destruct (assertResultOk_assertResultErr_complementary
              (VString "not a result") Tests.sigma0) as [H _].
  destruct (assertResultOk_assertResultErr_complementary VNull Tests.sigma0) as [_ H'].
  destruct (H ltac:(discriminate) ltac:(discriminate)) as [[Hok _]|[Herr Hok]].
  - vm_compute in Hok. discriminate.
  - split; [exact Herr|]. split; [exact Hok|]. exact (proj1 (H' (or_intror eq_refl))).
Defined.

(** X2: the two assertions look at the truthiness of [ok] and at nothing
    else, so they do not check that their argument is a Result: an
    object without an [ok] field passes [assertResultErr], and an object
    whose [ok] is a truthy non-boolean passes [assertResultOk], although
    [isResult] rejects both. *)
Theorem assertions_do_not_check_the_shape l o σ :
  heap σ !! l = Some o →
  (has_property o "ok" = false →
     isResult (heap σ) (VRef l) = false ∧
     assertResultErr (VRef l) σ = (Return (), σ)) ∧
  (to_boolean (get_property o "ok") = true →
   (∀ b, get_property o "ok" ≠ VBool b) →
     isResult (heap σ) (VRef l) = false ∧
     assertResultOk (VRef l) σ = (Return (), σ)).
Proof.
  intros Hl.
  assert (Hm : member (VRef l) "ok" σ = (Return (get_property o "ok"), σ)).
  { rewrite member_non_nullish by done. simpl. by rewrite Hl. }
  split.
  - intros Hno. split.
    + apply isResult_false_not_shape.
      intros (l' & o' & b & [= <-] & Ho & _ & Hok & _). congruence.
    + unfold assertResultErr, mbind, M_bind. rewrite Hm.
      unfold has_property in Hno. apply orb_false_iff in Hno as [Hown Hinh].
      apply bool_decide_eq_false in Hown. apply bool_decide_eq_false in Hinh.
      unfold get_property.
      destruct (props o !! "ok") as [x|]; [by destruct Hown|].
      destruct (inherited (okind o) !! "ok") as [x|]; [by destruct Hinh|]. done.
  - intros Ht Hnb. split.
    + apply isResult_false_not_shape.
      intros (l' & o' & b & [= <-] & Ho & _ & _ & Hb & _).
      rewrite Hl in Ho. injection Ho as <-. by destruct (Hnb b).
    + unfold assertResultOk, mbind, M_bind. by rewrite Hm, Ht.
Qed.

Lemma assertions_do_not_check_the_shape_witness :
  heap Tests.sigma0 !! 20%positive = Some (Obj KObject {[ "code" := VString "err-code" ]}) ∧
  isResult (heap Tests.sigma0) Tests.myError = false ∧
  assertResultErr Tests.myError Tests.sigma0 = (Return (), Tests.sigma0).
Proof.
  assert (H1 : heap Tests.sigma0 !! 20%positive
               = Some (Obj KObject {[ "code" := VString "err-code" ]}))
    by (vm_compute; reflexivity).
  split; [exact H1|].
  destruct (assertions_do_not_check_the_shape _ _ _ H1) as [H _].
  apply H. vm_compute. reflexivity.
Defined.

(** X3: the assertions invoke no function and change no existing object.
    Each of them either returns leaving the state exactly as it was, or
    throws an [Error] it has just made, and that error is then the one
    object added to the heap.  For the two [Equal] assertions this holds
    when the expected value is a primitive, whose conversion to a string
    runs no code. *)
Theorem assertions_frame ots v x :
  returns_or_raises (assertResultOk v) ∧
  returns_or_raises (assertResultErr v) ∧
  ((∀ l, x ≠ VRef l) →
     returns_or_raises (assertResultOkEqual ots v x) ∧
     returns_or_raises (assertResultErrEqual ots v x)).
Proof.
  assert (Hok : returns_or_raises (assertResultOk v)).
  { apply returns_or_raises_bind; [apply returns_or_raises_member|]. intros t.
    destruct (negb (to_boolean t));
      [apply returns_or_raises_raise|apply returns_or_raises_ret]. }
  assert (Herr : returns_or_raises (assertResultErr v)).
  { apply returns_or_raises_bind; [apply returns_or_raises_member|]. intros t.
    destruct (to_boolean t);
      [apply returns_or_raises_raise|apply returns_or_raises_ret]. }
  assert (Hreport : ∀ prefix,
    returns_or_raises
      (s ← template ots x; e ← new_Error (prefix +:+ s); throw e : M unit) ∨
    ∃ l, x = VRef l).
  { intros prefix. destruct x as [| |[]|[]| |l]; eauto;
      left; apply (returns_or_raises_raise (A := unit)). }
  split; [done|]. split; [done|]. intros Hx. split.
  - apply returns_or_raises_bind; [done|]. intros _.
    apply returns_or_raises_bind; [apply returns_or_raises_member|]. intros y.
    destruct (negb (strict_eq y x)); [|apply returns_or_raises_ret].
    destruct (Hreport "Expected the value to be ") as [H|[l ->]]; [done|].
    by destruct (Hx l).
  - apply returns_or_raises_bind; [done|]. intros _.
    apply returns_or_raises_bind; [apply returns_or_raises_member|]. intros y.
    destruct (negb (strict_eq y x)); [|apply returns_or_raises_ret].
    destruct (Hreport "Expected the error to be ") as [H|[l ->]]; [done|].
    by destruct (Hx l).
Qed.

Lemma assertions_frame_witness :
  (∀ l, VNumber (Num 43) ≠ VRef l) ∧
  returns_or_raises (assertResultOkEqual Tests.object_to_string (VRef 3) (VNumber (Num 43))).
Proof.
  assert (H1 : ∀ l, VNumber (Num 43) ≠ VRef l) by discriminate.
  split; [exact H1|].
  destruct (assertions_frame Tests.object_to_string (VRef 3) (VNumber (Num 43)))
    as (_ & _ & H).
  exact (proj1 (H H1)).
Defined.

(** ** Further properties of the constructors *)

Lemma strict_eq_same v : strict_eq v v = true ↔ v ≠ VNumber NaN.
Proof.
  destruct v as [| |b|[|z]|s|l]; simpl; rewrite ?bool_decide_eq_true; split; done.
Qed.

Lemma object_at_allocated h l o v key :
  h !! l = None → isResult h v = true →
  isResult (<[l := o]> h) v = true ∧
  get_property (object_at (<[l := o]> h) v) key = get_property (object_at h v) key.
Proof.
  intros Hl Hr. pose proof Hr as Hs.
  apply isResult_shape in Hs as (l' & o' & b & -> & Hl' & Hk & Hok & Hb & Hp).
  assert (Hne : l ≠ l') by congruence.
  split.
  - apply isResult_shape. exists l', o', b. by rewrite lookup_insert_ne.
  - simpl. by rewrite lookup_insert_ne.
Qed.

Lemma is_success_allocated h l o r v :
  h !! l = None → is_success h r v → is_success (<[l := o]> h) r v.
Proof.
  intros Hl (Hr & Hok & Hv).
  destruct (object_at_allocated h l o r "ok" Hl Hr) as [Hr' Hok'].
  destruct (object_at_allocated h l o r "value" Hl Hr) as [_ Hv'].
  split_and!; congruence.
Qed.

Lemma is_failure_allocated h l o r e :
  h !! l = None → is_failure h r e → is_failure (<[l := o]> h) r e.
Proof.
  intros Hl (Hr & Hok & Hv).
  destruct (object_at_allocated h l o r "ok" Hl Hr) as [Hr' Hok'].
  destruct (object_at_allocated h l o r "error" Hl Hr) as [_ Hv'].
  split_and!; congruence.
Qed.

(** X4: what [ok] builds reads back as built and satisfies the success
    assertions: [value] is the payload, there is no [error] field,
    [assertResultOk] passes and [assertResultErr] throws.  Checked
    against its own payload, [assertResultOkEqual] passes for every
    payload but [NaN], which is not strictly equal to itself.  The same
    holds for [err] with the roles exchanged. *)
Theorem constructors_round_trip ots v σ :
  (∃ r σ',
      ok v σ = (Return r, σ') ∧
      member r "value" σ' = (Return v, σ') ∧
      has_property (object_at (heap σ') r) "error" = false ∧
      assertResultOk r σ' = (Return (), σ') ∧
      (∃ t σ'', assertResultErr r σ' = (Throw t, σ'')) ∧
      (v ≠ VNumber NaN → assertResultOkEqual ots r v σ' = (Return (), σ')) ∧
      (v = VNumber NaN → ∃ t σ'', assertResultOkEqual ots r v σ' = (Throw t, σ''))) ∧
  (∃ r σ',
      err v σ = (Return r, σ') ∧
      member r "error" σ' = (Return v, σ') ∧
      has_property (object_at (heap σ') r) "value" = false ∧
      assertResultErr r σ' = (Return (), σ') ∧
      (∃ t σ'', assertResultOk r σ' = (Throw t, σ'')) ∧
      (v ≠ VNumber NaN → assertResultErrEqual ots r v σ' = (Return (), σ')) ∧
      (v = VNumber NaN → ∃ t σ'', assertResultErrEqual ots r v σ' = (Throw t, σ''))).
Proof.
  split.
  - destruct (ok_fresh v σ) as (l & _ & -> & Hs).
    set (σ' := State _ _) in *. change (is_success (heap σ') (VRef l) v) in Hs.
    exists (VRef l), σ'. split; [done|].
    pose proof Hs as (Hr & _ & Hv).
    pose proof (assertResultOkEqual_success ots (VRef l) v v σ' Hs) as Heq.
    split_and!.
    + by rewrite (member_of_result "value" _ σ' Hr), Hv.
    + subst σ'. simpl. rewrite lookup_insert_eq. vm_compute. reflexivity.
    + by apply (assertResultOk_success _ v).
    + destruct (assertResultErr_success _ v σ' Hs) as (l' & _ & ->). eauto.
    + intros Hn. apply strict_eq_same in Hn. by rewrite Hn in Heq.
    + intros ->. exact Heq.
  - destruct (err_fresh v σ) as (l & _ & -> & Hs).
    set (σ' := State _ _) in *. change (is_failure (heap σ') (VRef l) v) in Hs.
    exists (VRef l), σ'. split; [done|].
    pose proof Hs as (Hr & _ & Hv).
    pose proof (assertResultErrEqual_failure ots (VRef l) v v σ' Hs) as Heq.
    split_and!.
    + by rewrite (member_of_result "error" _ σ' Hr), Hv.
    + subst σ'. simpl. rewrite lookup_insert_eq. vm_compute. reflexivity.
    + by apply (assertResultErr_failure _ v).
    + destruct (assertResultOk_failure _ v σ' Hs) as (l' & _ & ->). eauto.
    + intros Hn. apply strict_eq_same in Hn. by rewrite Hn in Heq.
    + intros ->. exact Heq.
Qed.

Lemma constructors_round_trip_witness :
  ∃ r σ',
    ok (VNumber (Num 42)) Tests.sigma0 = (Return r, σ') ∧
    assertResultOkEqual Tests.object_to_string r (VNumber (Num 42)) σ' = (Return (), σ').
Proof.
  destruct (constructors_round_trip Tests.object_to_string (VNumber (Num 42)) Tests.sigma0)
    as [(r & σ' & Hok & _ & _ & _ & _ & Heq & _) _].
  exists r, σ'. split; [exact Hok|]. apply Heq. discriminate.
Defined.

(** X5: every call of a constructor makes a new object.  Two Results
    built one after the other are never strictly equal, even from the
    same payload, and building the second leaves the first as it was. *)
Theorem constructed_results_are_distinct v w σ :
  (∃ r1 σ1 r2 σ2,
      ok v σ = (Return r1, σ1) ∧ ok w σ1 = (Return r2, σ2) ∧
      strict_eq r1 r2 = false ∧
      is_success (heap σ2) r1 v ∧ is_success (heap σ2) r2 w) ∧
  (∃ r1 σ1 r2 σ2,
      err v σ = (Return r1, σ1) ∧ err w σ1 = (Return r2, σ2) ∧
      strict_eq r1 r2 = false ∧
      is_failure (heap σ2) r1 v ∧ is_failure (heap σ2) r2 w) ∧
  (∃ r1 σ1 r2 σ2,
      ok v σ = (Return r1, σ1) ∧ err w σ1 = (Return r2, σ2) ∧
      strict_eq r1 r2 = false ∧
      is_success (heap σ2) r1 v ∧ is_failure (heap σ2) r2 w).
Proof.
  assert (Hdistinct : ∀ (h : gmap loc obj) l1 l2 o,
            h !! l1 = Some o → h !! l2 = None → strict_eq (VRef l1) (VRef l2) = false).
  { intros h l1 l2 o H1 H2. apply strict_eq_distinct_refs. congruence. }
  split_and!.
  - destruct (ok_fresh v σ) as (l1 & _ & -> & Hs1).
    set (σ1 := State _ _) in *.
    destruct (ok_fresh w σ1) as (l2 & Hl2 & Ho2 & Hs2).
    eexists _, _, _, _. split; [done|]. split; [exact Ho2|]. split_and!.
    + eapply Hdistinct; [|exact Hl2]. subst σ1. simpl. apply lookup_insert_eq.
    + exact (is_success_allocated (heap σ1) l2 _ _ _ Hl2 Hs1).
    + exact Hs2.
  - destruct (err_fresh v σ) as (l1 & _ & -> & Hs1).
    set (σ1 := State _ _) in *.
    destruct (err_fresh w σ1) as (l2 & Hl2 & Ho2 & Hs2).
    eexists _, _, _, _. split; [done|]. split; [exact Ho2|]. split_and!.
    + eapply Hdistinct; [|exact Hl2]. subst σ1. simpl. apply lookup_insert_eq.
    + exact (is_failure_allocated (heap σ1) l2 _ _ _ Hl2 Hs1).
    + exact Hs2.
  - destruct (ok_fresh v σ) as (l1 & _ & -> & Hs1).
    set (σ1 := State _ _) in *.
    destruct (err_fresh w σ1) as (l2 & Hl2 & Ho2 & Hs2).
    eexists _, _, _, _. split; [done|]. split; [exact Ho2|]. split_and!.
    + eapply Hdistinct; [|exact Hl2]. subst σ1. simpl. apply lookup_insert_eq.
    + exact (is_success_allocated (heap σ1) l2 _ _ _ Hl2 Hs1).
    + exact Hs2.
Qed.

(** X6: whether a value is a Result, and what its fields hold, depends
    only on the object it refers to: a Result stays the same Result in
    any heap that keeps the existing objects, however many are added. *)
Theorem results_survive_heap_growth (h h' : gmap loc obj) r :
  h ⊆ h' →
  isResult h r = true →
  isResult h' r = true ∧
  (∀ key, get_property (object_at h' r) key = get_property (object_at h r) key) ∧
  (∀ v, is_success h r v → is_success h' r v) ∧
  (∀ e, is_failure h r e → is_failure h' r e).
Proof.
  intros Hsub Hr.
  assert (Hkeep : isResult h' r = true ∧
            ∀ key, get_property (object_at h' r) key = get_property (object_at h r) key).
  { apply isResult_shape in Hr as (l & o & b & -> & Hl & Hk & Hok & Hb & Hp).
    pose proof (lookup_weaken _ _ _ _ Hl Hsub) as Hl'. split.
    - apply isResult_shape. by exists l, o, b.
    - intros key. simpl. by rewrite Hl, Hl'. }
  destruct Hkeep as [Hr' Hget]. split; [done|]. split; [done|]. split.
  - intros v (_ & Hok & Hv). split_and!; [done|by rewrite Hget..].
  - intros e (_ & Hok & Hv). split_and!; [done|by rewrite Hget..].
Qed.

Lemma results_survive_heap_growth_witness :
  Tests.twins ⊆ <[4%positive := Obj KError ∅]> Tests.twins ∧
  isResult Tests.twins (VRef 3) = true ∧
  isResult (<[4%positive := Obj KError ∅]> Tests.twins) (VRef 3) = true.
Proof.
  assert (H1 : Tests.twins ⊆ <[4%positive := Obj KError ∅]> Tests.twins)
    by (apply insert_subseteq; vm_compute; reflexivity).
  assert (H2 : isResult Tests.twins (VRef 3) = true) by (vm_compute; reflexivity).
  split; [exact H1|]. split; [exact H2|].
  exact (proj1 (results_survive_heap_growth _ _ _ H1 H2)).
Defined.

(** ** Further properties of the adapters *)

Lemma call_non_function code fn args σ :
  instanceof_Function (heap σ) fn = false →
  call code fn args σ =
    (Throw (VRef (fresh (dom (heap σ)))),
     State (<[fresh (dom (heap σ)) := Obj KError {[ "message" := VString "not a function" ]}]>
              (heap σ)) (calls σ)).
Proof.
  intros Hf. destruct fn as [| | | | |l]; try done.
  simpl in *. by destruct (okind <$> heap σ !! l) as [[]|].
Qed.

Lemma adapters_without_handler code adopt fn e σ σ1 :
  (catches_sync code fn σ e σ1 →
     ∃ r σ2, resolve code fn VUndefined σ = (Return r, σ2) ∧
             is_failure (heap σ2) r (errMessage (heap σ1) e) ∧
             calls σ2 = calls σ1) ∧
  (catches_async code adopt fn σ e σ1 →
     ∃ r σ2, resolveAsync code adopt fn VUndefined σ = (Fulfilled r, σ2) ∧
             is_failure (heap σ2) r (errMessage (heap σ1) e) ∧
             calls σ2 = calls σ1).
Proof.
  destruct (handleError_absent_settles code adopt e σ1) as (r & σ2 & He & Hf & Hc & Hst).
  split.
  - intros Hs. rewrite (resolve_catches _ _ _ _ _ _ Hs), He. eauto.
  - intros Ha. rewrite (resolveAsync_catches _ _ _ _ _ _ _ Ha), He, Hst. eauto.
Qed.

(** X7: an operation that is not a function makes the call itself fail
    with a [TypeError], which the adapters catch like any other thrown
    error: without a handler [resolve] returns, and [resolveAsync] is
    fulfilled with, a failure Result whose error is the message of that
    [TypeError], and nothing has been invoked. *)
Theorem resolve_of_a_non_function code adopt fn σ :
  instanceof_Function (heap σ) fn = false →
  ∃ e σ1 s,
    catches_sync code fn σ e σ1 ∧
    instanceof_Error (heap σ1) e = true ∧
    get_property (object_at (heap σ1) e) "message" = VString s ∧
    (∃ r σ2, resolve code fn VUndefined σ = (Return r, σ2) ∧
             is_failure (heap σ2) r (VString s) ∧ calls σ2 = calls σ) ∧
    (∃ r σ2, resolveAsync code adopt fn VUndefined σ = (Fulfilled r, σ2) ∧
             is_failure (heap σ2) r (VString s) ∧ calls σ2 = calls σ).
Proof.
  intros Hf. pose proof (call_non_function code fn [] σ Hf) as Hc.
  set (l := fresh (dom (heap σ))) in *. set (σ1 := State _ _) in *.
  assert (Hl : heap σ1 !! l = Some (Obj KError {[ "message" := VString "not a function" ]}))
    by apply lookup_insert_eq.
  assert (He : instanceof_Error (heap σ1) (VRef l) = true)
    by (unfold instanceof_Error; by rewrite Hl).
  assert (Hm : get_property (object_at (heap σ1) (VRef l)) "message"
               = VString "not a function")
    by (unfold object_at; by rewrite Hl).
  exists (VRef l), σ1, "not a function". split; [exact Hc|]. split; [exact He|].
  split; [exact Hm|].
  destruct (adapters_without_handler code adopt fn (VRef l) σ σ1) as [Hs Ha].
  rewrite (errMessage_Error _ _ He), Hm in Hs, Ha. split.
  - by apply Hs.
  - apply Ha. by left.
Qed.

Lemma resolve_of_a_non_function_witness :
  instanceof_Function (heap Tests.sigma0) Tests.myError = false ∧
  ∃ r σ2 s, resolve Tests.code Tests.myError VUndefined Tests.sigma0 = (Return r, σ2) ∧
            is_failure (heap σ2) r (VString s) ∧ calls σ2 = [].
Proof.
  assert (H1 : instanceof_Function (heap Tests.sigma0) Tests.myError = false)
    by (vm_compute; reflexivity).
  split; [exact H1|].
  destruct (resolve_of_a_non_function Tests.code Tests.adopt _ _ H1)
    as (e & σ1 & s & _ & _ & _ & (r & σ2 & Hr) & _).
  exists r, σ2, s. exact Hr.
Defined.

(** X8: only instances of [Error] have their message read.  When the
    caught value is any other object, a plain object with a [message]
    field included, an adapter without a handler answers with the error
    ["An error occurred"]. *)
Theorem thrown_non_errors_lose_their_message code adopt fn l o σ σ1 :
  heap σ1 !! l = Some o →
  okind o ≠ KError →
  (catches_sync code fn σ (VRef l) σ1 →
     ∃ r σ2, resolve code fn VUndefined σ = (Return r, σ2) ∧
             is_failure (heap σ2) r (VString "An error occurred")) ∧
  (catches_async code adopt fn σ (VRef l) σ1 →
     ∃ r σ2, resolveAsync code adopt fn VUndefined σ = (Fulfilled r, σ2) ∧
             is_failure (heap σ2) r (VString "An error occurred")).
Proof.
  intros Hl Hk.
  assert (Hm : errMessage (heap σ1) (VRef l) = VString "An error occurred").
  { apply errMessage_other; [done|]. simpl. rewrite Hl. simpl.
    by destruct (okind o). }
  destruct (adapters_without_handler code adopt fn (VRef l) σ σ1) as [Hs Ha].
  rewrite Hm in Hs, Ha. split.
  - intros Hc. destruct (Hs Hc) as (r & σ2 & ? & ? & _). eauto.
  - intros Hc. destruct (Ha Hc) as (r & σ2 & ? & ? & _). eauto.
Qed.

Lemma thrown_non_errors_lose_their_message_witness :
  heap (call Tests.code_more (VRef 12) [] (State Tests.heap_more [])).2 !! 21%positive
    = Some (Obj KObject {[ "message" := VString "boom" ]}) ∧
  KObject ≠ KError ∧
  catches_sync Tests.code_more (VRef 12) (State Tests.heap_more []) (VRef 21)
    (call Tests.code_more (VRef 12) [] (State Tests.heap_more [])).2 ∧
  ∃ r σ2, resolve Tests.code_more (VRef 12) VUndefined (State Tests.heap_more [])
            = (Return r, σ2) ∧
          is_failure (heap σ2) r (VString "An error occurred").
Proof.
  assert (H1 : heap (call Tests.code_more (VRef 12) [] (State Tests.heap_more [])).2
                 !! 21%positive
               = Some (Obj KObject {[ "message" := VString "boom" ]}))
    by (vm_compute; reflexivity).
  assert (H2 : KObject ≠ KError) by discriminate.
  assert (H3 : catches_sync Tests.code_more (VRef 12) (State Tests.heap_more []) (VRef 21)
                 (call Tests.code_more (VRef 12) [] (State Tests.heap_more [])).2)
    by (vm_compute; reflexivity).
  split; [exact H1|]. split; [exact H2|]. split; [exact H3|].
  exact (proj1 (thrown_non_errors_lose_their_message
                  Tests.code_more Tests.adopt (VRef 12) 21%positive _ _ _ H1 H2) H3).
Defined.

(** X9: for a caught [Error] the error of the Result is whatever its
    [message] holds, not necessarily a string; an [Error] without a
    message of its own yields the empty string it inherits, not the
    generic message. *)
Theorem caught_error_message_is_used_unchecked code adopt fn l ps σ σ1 :
  heap σ1 !! l = Some (Obj KError ps) →
  (catches_sync code fn σ (VRef l) σ1 →
     ∃ r σ2, resolve code fn VUndefined σ = (Return r, σ2) ∧
             is_failure (heap σ2) r (default (VString "") (ps !! "message"))) ∧
  (catches_async code adopt fn σ (VRef l) σ1 →
     ∃ r σ2, resolveAsync code adopt fn VUndefined σ = (Fulfilled r, σ2) ∧
             is_failure (heap σ2) r (default (VString "") (ps !! "message"))).
Proof.
  intros Hl.
  assert (Hm : errMessage (heap σ1) (VRef l) = default (VString "") (ps !! "message")).
  { rewrite errMessage_Error by (simpl; by rewrite Hl).
    simpl object_at. rewrite Hl. unfold get_property. simpl.
    by destruct (ps !! "message"). }
  destruct (adapters_without_handler code adopt fn (VRef l) σ σ1) as [Hs Ha].
  rewrite Hm in Hs, Ha. split.
  - intros Hc. destruct (Hs Hc) as (r & σ2 & ? & ? & _). eauto.
  - intros Hc. destruct (Ha Hc) as (r & σ2 & ? & ? & _). eauto.
Qed.

Lemma caught_error_message_is_used_unchecked_witness :
  heap (call Tests.code_more (VRef 13) [] (State Tests.heap_more [])).2 !! 21%positive
    = Some (Obj KError ∅) ∧
  catches_sync Tests.code_more (VRef 13) (State Tests.heap_more []) (VRef 21)
    (call Tests.code_more (VRef 13) [] (State Tests.heap_more [])).2 ∧
  ∃ r σ2, resolve Tests.code_more (VRef 13) VUndefined (State Tests.heap_more [])
            = (Return r, σ2) ∧
          is_failure (heap σ2) r (VString "").
Proof.
  assert (H1 : heap (call Tests.code_more (VRef 13) [] (State Tests.heap_more [])).2
                 !! 21%positive = Some (Obj KError ∅))
    by (vm_compute; reflexivity).
  assert (H3 : catches_sync Tests.code_more (VRef 13) (State Tests.heap_more []) (VRef 21)
                 (call Tests.code_more (VRef 13) [] (State Tests.heap_more [])).2)
    by (vm_compute; reflexivity).
  split; [exact H1|]. split; [exact H3|].
  exact (proj1 (caught_error_message_is_used_unchecked
                  Tests.code_more Tests.adopt (VRef 13) 21%positive ∅ _ _ H1) H3).
Defined.

Lemma handleError_effect code e handler σ :
  calls (handleError code e handler σ).2
    = calls σ ++ handler_calls code (heap σ) handler e ∧
  (heap (handleError code e handler σ).2 = heap_after_handler code (heap σ) handler e ∨
   ∃ l o, heap_after_handler code (heap σ) handler e !! l = None ∧
          heap (handleError code e handler σ).2
            = <[l := o]> (heap_after_handler code (heap σ) handler e)).
Proof.
  unfold handler_calls, heap_after_handler.
  destruct (handler_run code (heap σ) handler e) as [[l [o h1]]|] eqn:Hr.
  - apply handler_run_Some in Hr as (c & -> & Hl & Hc).
    rewrite (handleError_function code e l c o h1 σ Hl Hc).
    destruct o as [v|x]; [destruct (isResult h1 v)|]; simpl; try (split; [done|by left]).
    split; [done|]. right. eexists _, _. split; [|done].
    apply not_elem_of_dom, is_fresh.
  - apply handler_run_None in Hr. rewrite app_nil_r.
    destruct (decide (handler = VUndefined)) as [->|Hu].
    + rewrite handleError_absent. simpl. split; [done|]. right. eexists _, _.
      split; [|done]. apply not_elem_of_dom, is_fresh.
    + rewrite (handleError_default code e handler σ Hu Hr). simpl.
      split; [done|]. right. eexists _, _.
      split; [|done]. apply not_elem_of_dom, is_fresh.
Qed.

Lemma await_calls adopt p σ : calls (await adopt p σ).2 = calls σ.
Proof.
  assert (H : calls (promise_resolved_with adopt p σ).2 = calls σ)
    by apply (settle_calls adopt (Return p, σ)).
  unfold await. destruct p as [| | | | |l]; try done.
  destruct (heap σ !! l) as [[[| | |s] ps]|]; try done.
  by destruct (ps !! "constructor").
Qed.

(** X10: the code of an adapter makes at most two invocations.  It calls
    the operation once, without arguments.  If that returns (resp. what
    it returns is awaited to a value, or never settles) the adapter
    invokes nothing else; if it throws (resp. what it returns is awaited
    to a rejection) the adapter invokes the handler once, on the caught
    value, when the handler is a function, and nothing when it is not.
    The operation is never tried again.  What the promise machinery does
    on its own account, running the [then] of a thenable it is given, is
    not an invocation by the adapter and is not part of the record. *)
Theorem adapters_invocation_record code adopt l c handler σ :
  okind <$> heap σ !! l = Some (KFunction c) →
  calls (resolve code (VRef l) handler σ).2 =
    calls σ ++ (l, []) ::
      match code c [] (heap σ) with
      | (Return _, _) => []
      | (Throw e, h1) => handler_calls code h1 handler e
      end ∧
  calls (resolveAsync code adopt (VRef l) handler σ).2 =
    calls σ ++ (l, []) ::
      match awaited code adopt (VRef l) σ with
      | Some (Throw e, σ1) => handler_calls code (heap σ1) handler e
      | _ => []
      end.
Proof.
  intros Hl.
  assert (Hcatch : ∀ e σ1, calls σ1 = calls σ ++ [(l, [])] →
    calls (handleError code e handler σ1).2
      = calls σ ++ (l, []) :: handler_calls code (heap σ1) handler e).
  { intros e σ1 Hc. destruct (handleError_effect code e handler σ1) as [-> _].
    rewrite Hc. by rewrite <- app_assoc. }
  unfold resolve, try_catch, resolveAsync, awaited.
  rewrite (call_function code l c [] σ Hl).
  destruct (code c [] (heap σ)) as [[p|e] h1]; cbn [fst snd].
  - split; [done|].
    pose proof (await_calls adopt p (State h1 (calls σ ++ [(l, [])]))) as Hw.
    destruct (await adopt p _) as [[|v|e] σ2]; cbn [fst snd calls] in Hw.
    + done.
    + by rewrite (settle_calls adopt (Return v, σ2)).
    + rewrite settle_calls. by apply Hcatch.
  - split; [by apply Hcatch|]. rewrite settle_calls. by apply Hcatch.
Qed.

(** The last line is an operation that returns a thenable: the thenable
    refuses, and the handler is invoked on what it refused with. *)
Lemma adapters_invocation_record_witness :
  okind <$> heap Tests.sigma0 !! 3%positive = Some (KFunction 2) ∧
  okind <$> Tests.heap_shaped !! 15%positive = Some (KFunction 14) ∧
  calls (resolve Tests.code (Tests.fn 2) (Tests.fn 3) Tests.sigma0).2
    = [(3%positive, []); (4%positive, [VRef 21])] ∧
  calls (resolveAsync Tests.code Tests.adopt (Tests.fn 2) Tests.myError Tests.sigma0).2
    = [(3%positive, [])] ∧
  calls (resolveAsync Tests.code_shaped Tests.adopt (VRef 15) (Tests.fn 3)
           (State Tests.heap_shaped [])).2
    = [(15%positive, []); (4%positive, [VString "refused"])].
Proof.
  assert (H1 : okind <$> heap Tests.sigma0 !! 3%positive = Some (KFunction 2))
    by (vm_compute; reflexivity).
  assert (H2 : okind <$> Tests.heap_shaped !! 15%positive = Some (KFunction 14))
    by (vm_compute; reflexivity).
  split; [exact H1|]. split; [exact H2|]. split; [|split].
  - exact (proj1 (adapters_invocation_record Tests.code Tests.adopt _ _ (Tests.fn 3) _ H1)).
  - exact (proj2 (adapters_invocation_record Tests.code Tests.adopt _ _ Tests.myError _ H1)).
  - exact (proj2 (adapters_invocation_record Tests.code_shaped Tests.adopt _ _ (Tests.fn 3)
                    (State Tests.heap_shaped []) H2)).
Defined.

(** X11: the normalization policy itself never changes an object.  The
    heap it leaves is the heap the handler left (the heap it started
    from, when the handler is not a function), either untouched or with
    one new object, the Result it made. *)
Theorem handleError_only_allocates code e handler σ :
  heap_after_handler code (heap σ) handler e ⊆ heap (handleError code e handler σ).2 ∧
  (heap (handleError code e handler σ).2 = heap_after_handler code (heap σ) handler e ∨
   ∃ l o, heap_after_handler code (heap σ) handler e !! l = None ∧
          heap (handleError code e handler σ).2
            = <[l := o]> (heap_after_handler code (heap σ) handler e)) ∧
  (instanceof_Function (heap σ) handler = false →
     heap σ ⊆ heap (handleError code e handler σ).2 ∧
     calls (handleError code e handler σ).2 = calls σ).
Proof.
  destruct (handleError_effect code e handler σ) as [Hc Hh].
  assert (Hsub : heap_after_handler code (heap σ) handler e
                 ⊆ heap (handleError code e handler σ).2).
  { destruct Hh as [->|(l & o & Hl & ->)]; [done|]. by apply insert_subseteq. }
  split; [done|]. split; [done|]. intros Hf.
  unfold heap_after_handler, handler_calls in *.
  destruct (handler_run code (heap σ) handler e) as [[l r]|] eqn:Hr.
  - apply handler_run_Some in Hr as (c & -> & Hl & _). simpl in Hf.
    rewrite Hl in Hf. discriminate.
  - split; [done|]. by rewrite Hc, app_nil_r.
Qed.

Lemma handleError_only_allocates_witness :
  instanceof_Function (heap Tests.sigma0) Tests.myError = false ∧
  heap Tests.sigma0 ⊆ heap (handleError Tests.code (VString "boom") Tests.myError Tests.sigma0).2.
Proof.
  assert (H1 : instanceof_Function (heap Tests.sigma0) Tests.myError = false)
    by (vm_compute; reflexivity).
  split; [exact H1|].
  destruct (handleError_only_allocates Tests.code (VString "boom") Tests.myError Tests.sigma0)
    as (_ & _ & H).
  exact (proj1 (H H1)).
Defined.

(** X12: given an operation that returns neither a promise nor a
    thenable (it returns some other value, or throws right away),
    [resolveAsync] does exactly what [resolve] does, state included, and
    hands the outcome to its promise: resolved with what [resolve]
    returns, rejected with what [resolve] throws. *)
Theorem resolveAsync_of_a_synchronous_operation code adopt fn handler σ :
  (∀ p σ1, call code fn [] σ = (Return p, σ1) →
           is_promise (heap σ1) p = false ∧ is_thenable (heap σ1) p = false) →
  resolveAsync code adopt fn handler σ = settle adopt (resolve code fn handler σ).
Proof.
  intros Hnp. unfold resolveAsync, resolve, try_catch.
  destruct (call code fn [] σ) as [[p|e] σ1] eqn:Hc; [|done].
  destruct (Hnp p σ1 eq_refl) as [Hp Ht]. apply not_thenable in Ht.
  assert (Ha : await adopt p σ1 = (Fulfilled p, σ1)).
  { pose proof (promise_resolved_with_plain adopt p σ1 Ht) as Hr.
    unfold await. destruct p as [| | | | |l]; try done.
    simpl in Hp. destruct (heap σ1 !! l) as [[[| | |s] ps]|]; done. }
  by rewrite Ha.
Qed.

Lemma resolveAsync_of_a_synchronous_operation_witness :
  (∀ p σ1, call Tests.code (Tests.fn 0) [] Tests.sigma0 = (Return p, σ1) →
           is_promise (heap σ1) p = false ∧ is_thenable (heap σ1) p = false) ∧
  resolveAsync Tests.code Tests.adopt (Tests.fn 0) (Tests.fn 3) Tests.sigma0
    = settle Tests.adopt (resolve Tests.code (Tests.fn 0) (Tests.fn 3) Tests.sigma0).
Proof.
  assert (H1 : ∀ p σ1,
            call Tests.code (Tests.fn 0) [] Tests.sigma0 = (Return p, σ1) →
            is_promise (heap σ1) p = false ∧ is_thenable (heap σ1) p = false).
  { intros p σ1 Hc. vm_compute in Hc. injection Hc as <- <-.
    split; vm_compute; reflexivity. }
  split; [exact H1|].
  exact (resolveAsync_of_a_synchronous_operation
           Tests.code Tests.adopt _ (Tests.fn 3) _ H1).
Defined.

(** X13: a handler's answer is never wrapped twice.  Whether the handler
    returns the bare error [x] or a failure Result already carrying
    [x], the policy's output is a failure Result whose error is [x]. *)
Theorem handler_answer_is_wrapped_once code e l c v x h1 σ :
  okind <$> heap σ !! l = Some (KFunction c) →
  code c [e] (heap σ) = (Return v, h1) →
  is_failure h1 v x ∨ (v = x ∧ isResult h1 x = false) →
  ∃ r σ2, handleError code e (VRef l) σ = (Return r, σ2) ∧
          is_failure (heap σ2) r x ∧
          (is_failure h1 v x → r = v ∧ heap σ2 = h1).
Proof.
  intros Hl Hc Hv. rewrite (handleError_function code e l c _ h1 σ Hl Hc).
  destruct Hv as [Hf|[-> Hn]].
  - pose proof Hf as (Hr & _). rewrite Hr.
    eexists _, _. split; [done|]. split; [exact Hf|done].
  - rewrite Hn.
    destruct (err_fresh x (State h1 (calls σ ++ [(l, [e])]))) as (l' & _ & -> & Hf).
    eexists _, _. split; [done|]. split; [exact Hf|].
    intros (Hr & _). congruence.
Qed.

Lemma handler_answer_is_wrapped_once_witness :
  okind <$> heap Tests.sigma0 !! 5%positive = Some (KFunction 4) ∧
  okind <$> heap Tests.sigma0 !! 4%positive = Some (KFunction 3) ∧
  (∃ r σ2, handleError Tests.code Tests.myError (Tests.fn 4) Tests.sigma0 = (Return r, σ2) ∧
           is_failure (heap σ2) r (VRef 21)) ∧
  (∃ r σ2, handleError Tests.code Tests.myError (Tests.fn 3) Tests.sigma0 = (Return r, σ2) ∧
           is_failure (heap σ2) r (VRef 21)).
Proof.
  assert (H1 : okind <$> heap Tests.sigma0 !! 5%positive = Some (KFunction 4))
    by (vm_compute; reflexivity).
  assert (H2 : okind <$> heap Tests.sigma0 !! 4%positive = Some (KFunction 3))
    by (vm_compute; reflexivity).
  assert (H3 : Tests.code 4 [Tests.myError] (heap Tests.sigma0)
               = (Return (VRef 22), (Tests.code 4 [Tests.myError] (heap Tests.sigma0)).2))
    by (vm_compute; reflexivity).
  assert (H4 : Tests.code 3 [Tests.myError] (heap Tests.sigma0)
               = (Return (VRef 21), (Tests.code 3 [Tests.myError] (heap Tests.sigma0)).2))
    by (vm_compute; reflexivity).
  assert (H5 : is_failure (Tests.code 4 [Tests.myError] (heap Tests.sigma0)).2
                 (VRef 22) (VRef 21))
    by (apply (result_object_is_failure _ 22%positive _ ∅); vm_compute; reflexivity).
  assert (H6 : isResult (Tests.code 3 [Tests.myError] (heap Tests.sigma0)).2 (VRef 21) = false)
    by (vm_compute; reflexivity).
  split; [exact H1|]. split; [exact H2|]. split.
  - destruct (handler_answer_is_wrapped_once Tests.code Tests.myError 5%positive 4
                (VRef 22) (VRef 21) _ Tests.sigma0 H1 H3 (or_introl H5))
      as (r & σ2 & Hh & Hf & _).
    exists r, σ2. split; [exact Hh|exact Hf].
  - destruct (handler_answer_is_wrapped_once Tests.code Tests.myError 4%positive 3
                (VRef 21) (VRef 21) _ Tests.sigma0 H2 H4 (or_intror (conj eq_refl H6)))
      as (r & σ2 & Hh & Hf & _).
    exists r, σ2. split; [exact Hh|exact Hf].
Defined.
